(** * AgriCoreDynamics: soil-sensor snapshot acquisition and crop rules

    A shallow embedding of [app3.0/src/utils/bluetooth.ts] (both revisions
    of the file: the notify-only one and the one with the [readValue]
    fallback) and of the rule table [CROP_RECOMMENDATIONS], together with
    the properties the specification states about them.

    Conventions of the embedding.
    - A JavaScript [number] is a rational ([Q]).  Every number that occurs
      (bytes, the thresholds 5.5, 6.0, 7.5, ...) is a dyadic rational of a
      few bits, hence an exact double, and the code only compares them.
    - A [DataView] is the list of its bytes.
    - A thrown value is a [JsError]: a message and an optional [cause].
    - The event loop is explicit: a session record holds what the platform
      keeps between two tasks (the timer table, the listener table, the
      link state, the pending promises) and [dispatch] runs one task. *)

From Stdlib Require Import QArith DecimalString.
From Stdlib.Strings Require Import Byte.
From stdpp Require Import gmap strings list.

Local Open Scope string_scope.
Local Open Scope nat_scope.

(** ** Values shared by both revisions *)

Abbreviation number := Q (only parsing).

(** [Error] objects: [new Error(message)] has no cause. *)
#[warnings="-register-all"]
Inductive JsError : Type :=
  MkError (message : string) (cause : option JsError).

Definition message_of (e : JsError) : string :=
  match e with MkError m _ => m end.

Definition cause_of (e : JsError) : option JsError :=
  match e with MkError _ c => c end.

Definition new_Error (message : string) : JsError := MkError message None.

(** Length of the [cause] chain of an error. *)
Fixpoint cause_depth (e : JsError) : nat :=
  match e with
  | MkError _ None => 0
  | MkError _ (Some c) => S (cause_depth c)
  end.

(** A computation that returns or throws. *)
Inductive Result (A : Type) : Type :=
| Return (a : A)
| Throw (e : JsError).
Arguments Return {A} a.
Arguments Throw {A} e.

Definition bind {A B} (r : Result A) (k : A -> Result B) : Result B :=
  match r with
  | Return a => k a
  | Throw e => Throw e
  end.

Notation "'let*' x ':=' r 'in' k" := (bind r (fun x => k))
  (at level 10, x pattern, r at level 100, k at level 200).

(** [`${n}`] for a non-negative integer. *)
Definition show (n : nat) : string := NilEmpty.string_of_uint (Nat.to_uint n).

(** *** DataView *)

Definition DataView : Type := list Byte.byte.

Definition byteLength (value : DataView) : nat := length value.

Definition uint8 (b : Byte.byte) : number := inject_Z (Z.of_N (Byte.to_N b)).

Definition RangeError : JsError :=
  new_Error "Offset is outside the bounds of the DataView".

Definition getUint8 (value : DataView) (byteOffset : nat) : Result number :=
  match value !! byteOffset with
  | Some b => Return (uint8 b)
  | None => Throw RangeError
  end.

(** [new DataView(Uint8Array.of(...).buffer)]: every element is stored
    modulo 256. *)
Definition byte_of_Z (z : Z) : Byte.byte :=
  default Byte.x00 (Byte.of_N (Z.to_N (z mod 256))).

Definition DataView_of (elements : list Z) : DataView := byte_of_Z <$> elements.

(** *** SensorData *)

Record SensorData : Type := mkSensorData {
  pH : number;
  moisture : number;
  tds : number;
  nitrogen : number;
  phosphorus : number;
  potassium : number;
}.

(** What a promise of a [SensorData] settles with. *)
Inductive Settlement : Type :=
| Fulfilled (data : SensorData)
| Rejected (reason : JsError).

(** Lines written to the console during the race. *)
Inductive ConsoleLine : Type :=
| LogSnapshotReceived (moisture ec : number)
| LogNotifyPacket (moisture ec : number)
| LogFallback
| LogReadValuePacket (moisture ec : number)
| LogDisconnected.

(** The answers of the platform to the calls made before the race. [None]
    means that the promise is fulfilled, [Some e] that it is rejected
    with [e].  [linkLost] tells whether the link, once [connect] has
    brought it up, drops again while the calls that follow [connect] are
    awaited, that is before one of them is rejected or the race starts. *)
Record Platform : Type := mkPlatform {
  bluetooth : bool;                       (* navigator.bluetooth is defined *)
  requestDevice : option JsError;
  connect : option JsError;
  getPrimaryService : option JsError;
  getCharacteristic : option JsError;
  startNotifications : option JsError;
  linkLost : bool;
}.

(** ** First revision: one notification or a timeout *)

Module NotifyOnly.

Definition toSensorData (moisture ec : number) : SensorData :=
  {| pH := 0;
     moisture := moisture;
     tds := ec;
     nitrogen := ec;
     phosphorus := ec;
     potassium := ec |}.

Definition parsePayload (value : DataView) : Result (number * number) :=
  if negb (byteLength value =? 2)%nat then
    Throw (new_Error ("Invalid BLE payload length: " ++ show (byteLength value)))
  else
    let* moisture := getUint8 value 0 in
    let* ec := getUint8 value 1 in
    Return (moisture, ec).

(** Tasks the event loop can run while the snapshot is awaited. *)
Inductive Event : Type :=
| CharacteristicValueChanged (value : option DataView)  (* ch.value *)
| TimeoutElapsed
| GattServerDisconnected.                               (* the link drops *)

Record Session : Type := mkSession {
  timeout : bool;                 (* the timer is in the timer table *)
  listener : bool;                (* handler is registered *)
  connected : bool;               (* device.gatt.connected *)
  disconnects : nat;              (* calls of device.gatt.disconnect() *)
  settlements : list Settlement;  (* calls of resolve and reject, in order *)
  console : list ConsoleLine;
}.

Definition idle : Session :=
  {| timeout := false; listener := false; connected := false;
     disconnects := 0; settlements := []; console := [] |}.

Definition set_timeout (b : bool) (s : Session) : Session :=
  {| timeout := b; listener := listener s; connected := connected s;
     disconnects := disconnects s; settlements := settlements s;
     console := console s |}.

Definition set_listener (b : bool) (s : Session) : Session :=
  {| timeout := timeout s; listener := b; connected := connected s;
     disconnects := disconnects s; settlements := settlements s;
     console := console s |}.

Definition set_connected (b : bool) (s : Session) : Session :=
  {| timeout := timeout s; listener := listener s; connected := b;
     disconnects := disconnects s; settlements := settlements s;
     console := console s |}.

Definition log (line : ConsoleLine) (s : Session) : Session :=
  {| timeout := timeout s; listener := listener s; connected := connected s;
     disconnects := disconnects s; settlements := settlements s;
     console := console s ++ [line] |}.

Definition disconnect (s : Session) : Session :=
  {| timeout := timeout s; listener := listener s; connected := false;
     disconnects := S (disconnects s); settlements := settlements s;
     console := console s |}.

Definition settle (r : Settlement) (s : Session) : Session :=
  {| timeout := timeout s; listener := listener s; connected := connected s;
     disconnects := disconnects s; settlements := settlements s ++ [r];
     console := console s |}.

Definition resolve (data : SensorData) : Session -> Session :=
  settle (Fulfilled data).

Definition reject (reason : JsError) : Session -> Session :=
  settle (Rejected reason).

(** The state of the returned promise: the first call of [resolve] or
    [reject] decides, later calls do nothing. *)
Definition promise (s : Session) : option Settlement := head (settlements s).

Definition cleanup (s : Session) : Session :=
  let s := set_timeout false s in            (* clearTimeout(timeout) *)
  let s := set_listener false s in           (* removeEventListener *)
  if connected s then log LogDisconnected (disconnect s) else s.

Definition timeout_callback (s : Session) : Session :=
  let s := cleanup s in
  reject (new_Error "No data received from ESP32") s.

Definition handler (value : option DataView) (s : Session) : Session :=
  match value with
  | None => s
  | Some value =>
      match parsePayload value with
      | Return (moisture, ec) =>
          let s := log (LogSnapshotReceived moisture ec) s in
          let s := cleanup s in
          resolve (toSensorData moisture ec) s
      | Throw err =>
          let s := cleanup s in
          reject err s
      end
  end.

(** One task.  A listener runs only while it is registered and a timer
    callback only while the timer is in the timer table, which it leaves
    when it fires. *)
Definition dispatch (s : Session) (ev : Event) : Session :=
  match ev with
  | CharacteristicValueChanged value =>
      if listener s then handler value s else s
  | TimeoutElapsed =>
      if timeout s then timeout_callback (set_timeout false s) else s
  | GattServerDisconnected => set_connected false s
  end.

(** The executor of [new Promise]: [setTimeout] and [addEventListener]. *)
Definition executor (s : Session) : Session :=
  set_listener true (set_timeout true s).

(** The calls before the race, under the platform answers [p]: the
    session in which the call is rejected, or the session in which the
    executor has run.  Nothing guards the calls between [connect] and the
    executor. *)
Definition setup (p : Platform) : Session :=
  if negb (bluetooth p) then
    reject (new_Error "Web Bluetooth not supported. Use Chrome.") idle
  else
    match requestDevice p with Some e => reject e idle | None =>
    match connect p with Some e => reject e idle | None =>
    let s := set_connected (negb (linkLost p)) idle in
    match getPrimaryService p with Some e => reject e s | None =>
    match getCharacteristic p with Some e => reject e s | None =>
    match startNotifications p with Some e => reject e s | None =>
    executor s
    end end end end end.

(** [connectToESP32] under the platform answers [p], followed by the
    tasks [events] in the order the event loop runs them; the delay
    [timeoutMs] only fixes where [TimeoutElapsed] stands in that order.
    The event loop goes on after a rejected setup: no timer and no
    handler exist then, but the link can still drop. *)
Definition connectToESP32 (p : Platform) (events : list Event) : Session :=
  foldl dispatch (setup p) events.

End NotifyOnly.

(** ** Second revision: notification first, [readValue] as fallback *)

Module Fallback.

Definition bytesToSensorData (moisture ec : number) : SensorData :=
  {| pH := 0;
     moisture := moisture;
     tds := ec;
     nitrogen := ec;
     phosphorus := ec;
     potassium := ec |}.

Definition parse2Bytes (value : DataView) : Result (number * number) :=
  if (byteLength value <? 2)%nat then
    Throw (new_Error ("Expected 2 bytes (moisture, ec) but got "
                        ++ show (byteLength value)))
  else
    let* moisture := getUint8 value 0 in
    let* ec := getUint8 value 1 in
    Return (moisture, ec).

Inductive Event : Type :=
| CharacteristicValueChanged (value : option DataView)  (* ch.value *)
| TimeoutElapsed
| ReadValueSettled (value : Result DataView)  (* the readValue() promise *)
| GattServerDisconnected.                     (* the link drops *)

(** What [Promise.race] is fulfilled with. *)
Inductive RaceResult : Type :=
| Snapshot (data : SensorData)
| TimedOut.                                   (* the string "timeout" *)

(** The [await] at which the body of the async function is suspended. *)
Inductive Await : Type :=
| AwaitRace
| AwaitReadValue
| Completed.

Record Session : Type := mkSession {
  timeout : bool;                    (* the timer is in the timer table *)
  listener : bool;                   (* handler is registered *)
  notifPromise : option SensorData;  (* [None] while pending *)
  timeoutPromise : bool;             (* fulfilled with "timeout" *)
  race : option RaceResult;          (* [None] while pending *)
  suspended : Await;
  connected : bool;                  (* device.gatt.connected *)
  disconnects : nat;                 (* calls of device.gatt.disconnect() *)
  readValues : nat;                  (* calls of characteristic.readValue() *)
  settlements : list Settlement;     (* completions of the async body *)
  uncaught : list JsError;           (* exceptions that escape a listener *)
  console : list ConsoleLine;
}.

Definition idle : Session :=
  {| timeout := false; listener := false; notifPromise := None;
     timeoutPromise := false; race := None; suspended := Completed;
     connected := false; disconnects := 0; readValues := 0;
     settlements := []; uncaught := []; console := [] |}.

Definition set_timeout (b : bool) (s : Session) : Session :=
  mkSession b (listener s) (notifPromise s) (timeoutPromise s) (race s)
    (suspended s) (connected s) (disconnects s) (readValues s)
    (settlements s) (uncaught s) (console s).

Definition set_listener (b : bool) (s : Session) : Session :=
  mkSession (timeout s) b (notifPromise s) (timeoutPromise s) (race s)
    (suspended s) (connected s) (disconnects s) (readValues s)
    (settlements s) (uncaught s) (console s).

Definition set_notifPromise (d : SensorData) (s : Session) : Session :=
  mkSession (timeout s) (listener s) (Some d) (timeoutPromise s) (race s)
    (suspended s) (connected s) (disconnects s) (readValues s)
    (settlements s) (uncaught s) (console s).

Definition set_timeoutPromise (s : Session) : Session :=
  mkSession (timeout s) (listener s) (notifPromise s) true (race s)
    (suspended s) (connected s) (disconnects s) (readValues s)
    (settlements s) (uncaught s) (console s).

Definition set_race (r : RaceResult) (s : Session) : Session :=
  mkSession (timeout s) (listener s) (notifPromise s) (timeoutPromise s)
    (Some r) (suspended s) (connected s) (disconnects s) (readValues s)
    (settlements s) (uncaught s) (console s).

Definition set_suspended (a : Await) (s : Session) : Session :=
  mkSession (timeout s) (listener s) (notifPromise s) (timeoutPromise s)
    (race s) a (connected s) (disconnects s) (readValues s)
    (settlements s) (uncaught s) (console s).

Definition set_connected (b : bool) (s : Session) : Session :=
  mkSession (timeout s) (listener s) (notifPromise s) (timeoutPromise s)
    (race s) (suspended s) b (disconnects s) (readValues s)
    (settlements s) (uncaught s) (console s).

Definition disconnect (s : Session) : Session :=
  mkSession (timeout s) (listener s) (notifPromise s) (timeoutPromise s)
    (race s) (suspended s) false (S (disconnects s)) (readValues s)
    (settlements s) (uncaught s) (console s).

Definition readValue (s : Session) : Session :=
  mkSession (timeout s) (listener s) (notifPromise s) (timeoutPromise s)
    (race s) (suspended s) (connected s) (disconnects s) (S (readValues s))
    (settlements s) (uncaught s) (console s).

Definition settle (r : Settlement) (s : Session) : Session :=
  mkSession (timeout s) (listener s) (notifPromise s) (timeoutPromise s)
    (race s) (suspended s) (connected s) (disconnects s) (readValues s)
    (settlements s ++ [r]) (uncaught s) (console s).

Definition report (e : JsError) (s : Session) : Session :=
  mkSession (timeout s) (listener s) (notifPromise s) (timeoutPromise s)
    (race s) (suspended s) (connected s) (disconnects s) (readValues s)
    (settlements s) (uncaught s ++ [e]) (console s).

Definition log (line : ConsoleLine) (s : Session) : Session :=
  mkSession (timeout s) (listener s) (notifPromise s) (timeoutPromise s)
    (race s) (suspended s) (connected s) (disconnects s) (readValues s)
    (settlements s) (uncaught s) (console s ++ [line]).

(** The state of the returned promise. *)
Definition promise (s : Session) : option Settlement := head (settlements s).

(** The [finally] block, then the completion of the async function. *)
Definition finally (completion : Settlement) (s : Session) : Session :=
  let s := if connected s then log LogDisconnected (disconnect s) else s in
  settle completion (set_suspended Completed s).

(** The body after [await Promise.race(...)]. *)
Definition after_race (result : RaceResult) (s : Session) : Session :=
  match result with
  | Snapshot data => finally (Fulfilled data) s
  | TimedOut =>
      let s := log LogFallback s in
      set_suspended AwaitReadValue (readValue s)
  end.

(** The body after [await characteristic.readValue()]. *)
Definition after_readValue (value : Result DataView) (s : Session) : Session :=
  match value with
  | Throw e => finally (Rejected e) s
  | Return value =>
      match parse2Bytes value with
      | Throw e => finally (Rejected e) s
      | Return (moisture, ec) =>
          let s := log (LogReadValuePacket moisture ec) s in
          finally (Fulfilled (bytesToSensorData moisture ec)) s
      end
  end.

(** [Promise.race]: the first input to settle settles the race, and the
    body resumes in the microtask that follows, before the next task. *)
Definition settle_race (r : RaceResult) (s : Session) : Session :=
  match race s with
  | Some _ => s
  | None =>
      let s := set_race r s in
      match suspended s with
      | AwaitRace => after_race r s
      | _ => s
      end
  end.

(** [resolve] of [notifPromise]. *)
Definition resolve_notif (data : SensorData) (s : Session) : Session :=
  match notifPromise s with
  | Some _ => s
  | None => settle_race (Snapshot data) (set_notifPromise data s)
  end.

(** [resolve("timeout")] of [timeoutPromise]. *)
Definition resolve_timeout (s : Session) : Session :=
  if timeoutPromise s then s
  else settle_race TimedOut (set_timeoutPromise s).

(** The listener.  Its [throw] leaves through the event dispatcher: the
    executor of [notifPromise] takes no [reject]. *)
Definition handler (value : option DataView) (s : Session) : Session :=
  match value with
  | None => s
  | Some value =>
      match parse2Bytes value with
      | Return (moisture, ec) =>
          let s := log (LogNotifyPacket moisture ec) s in
          let s := set_listener false s in
          resolve_notif (bytesToSensorData moisture ec) s
      | Throw e =>
          let s := set_listener false s in
          report e s
      end
  end.

Definition dispatch (s : Session) (ev : Event) : Session :=
  match ev with
  | CharacteristicValueChanged value =>
      if listener s then handler value s else s
  | TimeoutElapsed =>
      if timeout s then resolve_timeout (set_timeout false s) else s
  | ReadValueSettled value =>
      match suspended s with
      | AwaitReadValue => after_readValue value s
      | _ => s
      end
  | GattServerDisconnected => set_connected false s
  end.

(** Both executors ([addEventListener], [setTimeout]) and the [await]
    of the race. *)
Definition start_race (s : Session) : Session :=
  set_suspended AwaitRace (set_timeout true (set_listener true s)).

(** The calls before the race, under the platform answers [p]: the
    session in which the call is rejected, or the session in which the
    race has started.  Everything after [connect] is inside [try], so a
    rejection there runs the [finally] block, which sees the link as it
    is at that moment. *)
Definition setup (p : Platform) : Session :=
  if negb (bluetooth p) then
    settle (Rejected (new_Error
      "Web Bluetooth not supported. Use Chrome on laptop/Android.")) idle
  else
    match requestDevice p with Some e => settle (Rejected e) idle | None =>
    match connect p with Some e => settle (Rejected e) idle | None =>
    let s := set_connected (negb (linkLost p)) idle in
    match getPrimaryService p with Some e => finally (Rejected e) s | None =>
    match getCharacteristic p with Some e => finally (Rejected e) s | None =>
    match startNotifications p with Some e => finally (Rejected e) s | None =>
    start_race s
    end end end end end.

(** [connectToESP32] under the platform answers [p], followed by the
    tasks [events]; the delay [timeoutMs] only fixes where
    [TimeoutElapsed] stands in that order.  The event loop goes on after
    a rejected setup: no timer, no handler and no read exist then, but
    the link can still drop. *)
Definition connectToESP32 (p : Platform) (events : list Event) : Session :=
  foldl dispatch (setup p) events.

End Fallback.

(** A platform on which every call before the race succeeds and the
    link holds. *)
Definition ready : Platform :=
  {| bluetooth := true; requestDevice := None; connect := None;
     getPrimaryService := None; getCharacteristic := None;
     startNotifications := None; linkLost := false |}.


(** ** The rule table and the rule engine *)

Module CropRules.

(** A value of a [conditions] object: a number or an array of strings. *)
Inductive Condition : Type :=
| Bound (x : number)
| Allowed (values : list string).

Record Rule : Type := mkRule {
  crops : list string;
  cropsHi : list string;
  cropsGu : list string;
  conditions : gmap string Condition;
}.

Record Default : Type := mkDefault {
  default_cropsEn : list string;
  default_cropsHi : list string;
  default_cropsGu : list string;
}.

Record Recommendations : Type := mkRecommendations {
  rules : list Rule;
  default : Default;
}.

Definition Wheat : Rule :=
  {| crops := ["Wheat"; "Maize"; "Corn"];
     cropsHi := ["गेहूं"; "मक्का"; "मकई"];
     cropsGu := ["ઘઉં"; "મકાઈ"; "કોર્ન"];
     conditions := list_to_map
       [("pHMin", Bound 6.0); ("pHMax", Bound 8.5);
        ("nMin", Bound 50); ("pMin", Bound 30); ("kMin", Bound 50);
        ("dominantWeather", Allowed ["sunny"; "cloudy"]);
        ("season", Allowed ["rabi"; "kharif"])] |}.

Definition Rice : Rule :=
  {| crops := ["Rice"; "Paddy"];
     cropsHi := ["धान"; "चावल"];
     cropsGu := ["ચોખા"; "ડાંગર"];
     conditions := list_to_map
       [("pHMin", Bound 5.5); ("pHMax", Bound 7.5);
        ("moistureMin", Bound 50);
        ("nMin", Bound 40); ("pMin", Bound 25); ("kMin", Bound 40);
        ("dominantWeather", Allowed ["rainy"; "humid"]);
        ("season", Allowed ["kharif"])] |}.

Definition Chickpea : Rule :=
  {| crops := ["Chickpea"; "Lentil"; "Peas"];
     cropsHi := ["चना"; "दाल"; "मटर"];
     cropsGu := ["ચણા"; "દાળ"; "વટાણા"];
     conditions := list_to_map
       [("pHMin", Bound 6.0); ("pHMax", Bound 8.0);
        ("nMin", Bound 20); ("pMin", Bound 25); ("kMin", Bound 25);
        ("dominantWeather", Allowed ["cloudy"; "windy"; "sunny"]);
        ("season", Allowed ["rabi"])] |}.

Definition Cotton : Rule :=
  {| crops := ["Cotton"; "Soybean"];
     cropsHi := ["कपास"; "सोयाबीन"];
     cropsGu := ["કપાસ"; "સોયાબીન"];
     conditions := list_to_map
       [("pHMin", Bound 6.0); ("pHMax", Bound 8.0);
        ("nMin", Bound 45); ("pMin", Bound 30); ("kMin", Bound 45);
        ("dominantWeather", Allowed ["sunny"; "humid"]);
        ("season", Allowed ["kharif"])] |}.

(** The key [pMIn] is spelled as in the source. *)
Definition Sugarcane : Rule :=
  {| crops := ["Sugarcane"];
     cropsHi := ["गन्ना"];
     cropsGu := ["શેરડી"];
     conditions := list_to_map
       [("pHMin", Bound 6.0); ("pHMax", Bound 8.5);
        ("nMin", Bound 65); ("pMIn", Bound 40); ("kMin", Bound 65);
        ("moistureMin", Bound 50);
        ("dominantWeather", Allowed ["sunny"; "humid"; "rainy"])] |}.

Definition Potato : Rule :=
  {| crops := ["Potato"; "Vegetables"];
     cropsHi := ["आलू"; "सब्जियां"];
     cropsGu := ["બટાકા"; "શાકભાજી"];
     conditions := list_to_map
       [("pHMin", Bound 5.5); ("pHMax", Bound 7.0);
        ("nMin", Bound 40); ("pMin", Bound 35); ("kMin", Bound 40);
        ("dominantWeather", Allowed ["cloudy"; "sunny"]);
        ("season", Allowed ["rabi"; "zaid"])] |}.

Definition CROP_RECOMMENDATIONS : Recommendations :=
  {| rules := [Wheat; Rice; Chickpea; Cotton; Sugarcane; Potato];
     default :=
       {| default_cropsEn := ["General Crops"; "Vegetables"];
          default_cropsHi := ["सामान्य फसलें"; "सब्जियां"];
          default_cropsGu := ["સામાન્ય પાક"; "શાકભાજી"] |} |}.

(** Modelled from the spec: the [context] argument of the rule engine
    (section 4.4), the weather and the season chosen by the user.  No
    source file declares it. *)
Record Context : Type := mkContext {
  weather : string;
  season : string;
}.

(** Modelled from the spec: an inclusive lower bound of the rule engine
    (section 4.4), which is not among the sources.  A bound that is
    absent from the conditions is a wildcard. *)
Definition at_least (c : gmap string Condition) (key : string) (x : number)
  : bool :=
  match c !! key with
  | Some (Bound b) => Qle_bool b x
  | _ => true
  end.

(** Modelled from the spec: an inclusive upper bound of the rule engine
    (section 4.4), with the same wildcard rule. *)
Definition at_most (c : gmap string Condition) (key : string) (x : number)
  : bool :=
  match c !! key with
  | Some (Bound b) => Qle_bool x b
  | _ => true
  end.

(** Modelled from the spec: a weather or season constraint of the rule
    engine (section 4.4) holds iff the context value is in the allowed
    set, or the rule has no such constraint. *)
Definition one_of (c : gmap string Condition) (key : string) (v : string)
  : bool :=
  match c !! key with
  | Some (Allowed values) => bool_decide (v ∈ values)
  | _ => true
  end.

(** Modelled from the spec: the match of one rule by the rule engine
    (section 4.4), which is not among the sources.  A rule matches iff
    every bound present in its conditions holds; the engine reads the
    bounds it knows by name (lower and upper bounds on pH, moisture, N, P
    and K, the weather set, the season set) and ignores every other key. *)
Definition matches (reading : SensorData) (context : Context) (r : Rule)
  : bool :=
  let c := conditions r in
  at_least c "pHMin" (pH reading) && at_most c "pHMax" (pH reading)
  && at_least c "moistureMin" (moisture reading)
  && at_most c "moistureMax" (moisture reading)
  && at_least c "nMin" (nitrogen reading)
  && at_most c "nMax" (nitrogen reading)
  && at_least c "pMin" (phosphorus reading)
  && at_most c "pMax" (phosphorus reading)
  && at_least c "kMin" (potassium reading)
  && at_most c "kMax" (potassium reading)
  && one_of c "dominantWeather" (weather context)
  && one_of c "season" (season context).

(** Modelled from the spec: the rule engine [recommend] (section 4.4) over
    an arbitrary table; the engine itself is not among the sources, only
    the table it reads.  The rules are tried in their declared order, the
    crops of the first rule that matches are returned and the search
    stops there; the default crops are returned when no rule matches. *)
Definition recommend_from (table : Recommendations)
    (reading : SensorData) (context : Context) : list string :=
  match find (matches reading context) (rules table) with
  | Some r => crops r
  | None => default_cropsEn (default table)
  end.

(** Modelled from the spec: [recommend] (section 4.4), the rule engine on
    the table of the source. *)
Definition recommend : SensorData -> Context -> list string :=
  recommend_from CROP_RECOMMENDATIONS.

End CropRules.

(** ** The configuration *)

Module AppConfig.

Record Colors : Type := mkColors {
  primary : string;
  accent : string;
  background : string;
  card : string;
  text : string;
  textLight : string;
}.

(** The pH entry of [thresholds]. *)
Record Range : Type := mkRange {
  min : number;
  max : number;
  optimal : number;
}.

(** The other entries of [thresholds]. *)
Record Levels : Type := mkLevels {
  low : number;
  medium : number;
  high : number;
}.

Record Thresholds : Type := mkThresholds {
  pH : Range;
  nitrogen : Levels;
  phosphorus : Levels;
  potassium : Levels;
  moisture : Levels;
}.

(** The entries of [fertilizers], in kg per acre. *)
Record Urea : Type := mkUrea {
  lowN : number;
  veryLowN : number;
}.

Record Dap : Type := mkDap {
  lowP : number;
  veryLowP : number;
}.

Record Mop : Type := mkMop {
  lowK : number;
  veryLowK : number;
}.

Record Fertilizers : Type := mkFertilizers {
  urea : Urea;
  dap : Dap;
  mop : Mop;
}.

(** An entry of [seasons], [weatherOptions] or [landUnits]; only the
    weather options carry an icon. *)
Record Choice : Type := mkChoice {
  value : string;
  labelEn : string;
  labelHi : string;
  labelGu : string;
  icon : option string;
}.

Record Config : Type := mkConfig {
  colors : Colors;
  thresholds : Thresholds;
  fertilizers : Fertilizers;
  seasons : list Choice;
  weatherOptions : list Choice;
  landUnits : list Choice;
}.

Definition APP_CONFIG : Config :=
  {| colors :=
       {| primary := "#4CAF50"; accent := "#FF9800"; background := "#F5F5F5";
          card := "#FFFFFF"; text := "#2C3E50"; textLight := "#7F8C8D" |};
     thresholds :=
       {| pH := {| min := 5.5; max := 7.5; optimal := 6.5 |};
          nitrogen := {| low := 30; medium := 55; high := 75 |};
          phosphorus := {| low := 30; medium := 55; high := 75 |};
          potassium := {| low := 30; medium := 55; high := 75 |};
          moisture := {| low := 20; medium := 40; high := 60 |} |};
     fertilizers :=
       {| urea := {| lowN := 50; veryLowN := 75 |};
          dap := {| lowP := 40; veryLowP := 60 |};
          mop := {| lowK := 30; veryLowK := 50 |} |};
     seasons :=
       [ mkChoice "rabi" "Rabi (Winter)" "रबी (शीतकालीन)" "રબી (શિયાળો)" None;
         mkChoice "kharif" "Kharif (Monsoon)" "खरीफ (मानसून)" "ખરીફ (ચોમાસું)" None;
         mkChoice "zaid" "Zaid (Summer)" "जायद (ग्रीष्मकालीन)" "ઝાઈદ (ઉનાળો)" None ];
     weatherOptions :=
       [ mkChoice "sunny" "Sunny" "धूप" "સની" (Some "☀️");
         mkChoice "cloudy" "Cloudy" "बादल" "વાદળછાયું" (Some "☁️");
         mkChoice "rainy" "Rainy" "बारिश" "વરસાદ" (Some "🌧️");
         mkChoice "windy" "Windy" "हवादार" "પવન" (Some "💨");
         mkChoice "humid" "Humid" "नम" "ભેજવાળું" (Some "💧");
         mkChoice "foggy" "Foggy" "कोहरा" "ધુમ્મસવાળું" (Some "🌫️") ];
     landUnits :=
       [ mkChoice "acre" "Acre" "एकड़" "એકર" None;
         mkChoice "hectare" "Hectare" "हेक्टेयर" "હેક્ટર" None ] |}.

End AppConfig.

(** ** Notions used by the statements *)

(** The length contract of a decoder as the specification words it:
    success on two bytes, failure on every other length. *)
Definition strict_length_contract
    (decode : DataView → Result (number * number)) : Prop :=
  (∀ value, byteLength value = 2 → ∃ r, decode value = Return r)
  ∧ (∀ value, byteLength value ≠ 2 → ∃ err, decode value = Throw err).

(** The two decode pipelines, as the listeners chain them. *)
Definition decode_notifyOnly (value : DataView) : Result SensorData :=
  let* (moisture, ec) := NotifyOnly.parsePayload value in
  Return (NotifyOnly.toSensorData moisture ec).

Definition decode_fallback (value : DataView) : Result SensorData :=
  let* (moisture, ec) := Fallback.parse2Bytes value in
  Return (Fallback.bytesToSensorData moisture ec).

(** *** Schedules

    An event is quiet when it cannot settle the race: a value-changed
    event without a value, the loss of the link and, in the second
    revision, a [readValue] answer while no read is in flight. *)
Definition quiet1 (ev : NotifyOnly.Event) : Prop :=
  match ev with
  | NotifyOnly.CharacteristicValueChanged None => True
  | NotifyOnly.GattServerDisconnected => True
  | _ => False
  end.

(** What an event settles the returned promise with when it is the first
    event of the first revision that is not quiet. *)
Definition verdict1 (ev : NotifyOnly.Event) : option Settlement :=
  match ev with
  | NotifyOnly.TimeoutElapsed =>
      Some (Rejected (new_Error "No data received from ESP32"))
  | NotifyOnly.CharacteristicValueChanged (Some value) =>
      Some (match decode_notifyOnly value with
            | Return data => Fulfilled data
            | Throw err => Rejected err
            end)
  | _ => None
  end.

Definition quiet2 (ev : Fallback.Event) : Prop :=
  match ev with
  | Fallback.CharacteristicValueChanged None => True
  | Fallback.GattServerDisconnected => True
  | Fallback.ReadValueSettled _ => True
  | _ => False
  end.

Definition not_a_read (ev : Fallback.Event) : Prop :=
  match ev with
  | Fallback.ReadValueSettled _ => False
  | _ => True
  end.

(** The cancellation of the loser as the specification words it, for a
    session of the second revision: once the timer has won the handler is
    unregistered and a value-changed event is ignored; once a notification
    has won the timer is cancelled. *)
Definition loser_is_cancelled (s : Fallback.Session) : Prop :=
  (Fallback.race s = Some Fallback.TimedOut →
     Fallback.listener s = false
     ∧ ∀ value,
         Fallback.dispatch s (Fallback.CharacteristicValueChanged value) = s)
  ∧ (∀ data, Fallback.race s = Some (Fallback.Snapshot data) →
       Fallback.timeout s = false).

(** Failure with a timeout error that carries [e] as its cause, as the
    specification words the failure of the fallback read. *)
Definition fails_with_cause (s : Fallback.Session) (e : JsError) : Prop :=
  ∃ err, Fallback.promise s = Some (Rejected err) ∧ cause_of err = Some e.

(** The session of the first revision while the snapshot is awaited. *)
Definition waiting (s : NotifyOnly.Session) : Prop :=
  NotifyOnly.timeout s = true ∧ NotifyOnly.listener s = true
  ∧ NotifyOnly.disconnects s = 0
  ∧ NotifyOnly.settlements s = [] ∧ NotifyOnly.console s = [].

(** The session of the first revision once [cleanup] has run. *)
Definition closed (s : NotifyOnly.Session) : Prop :=
  NotifyOnly.timeout s = false ∧ NotifyOnly.listener s = false.

(** The session of the second revision while the race is pending, while
    the fallback read is in flight, and what a [readValue] answer
    completes the call with. *)
Definition racing (s : Fallback.Session) : Prop :=
  Fallback.timeout s = true ∧ Fallback.listener s = true
  ∧ Fallback.notifPromise s = None ∧ Fallback.timeoutPromise s = false
  ∧ Fallback.race s = None ∧ Fallback.suspended s = Fallback.AwaitRace
  ∧ Fallback.disconnects s = 0 ∧ Fallback.readValues s = 0
  ∧ Fallback.settlements s = [].

Definition reading (s : Fallback.Session) : Prop :=
  Fallback.timeout s = false ∧ Fallback.timeoutPromise s = true
  ∧ Fallback.race s = Some Fallback.TimedOut
  ∧ Fallback.suspended s = Fallback.AwaitReadValue
  ∧ Fallback.disconnects s = 0 ∧ Fallback.readValues s = 1
  ∧ Fallback.settlements s = [].

Definition read_verdict (value : Result DataView) : Settlement :=
  match value with
  | Throw e => Rejected e
  | Return value =>
      match decode_fallback value with
      | Return data => Fulfilled data
      | Throw e => Rejected e
      end
  end.

(** The teardown invariant of the second revision. *)
Definition torn_down_or_pending (s : Fallback.Session) : Prop :=
  ((Fallback.suspended s = Fallback.AwaitRace ∧ Fallback.race s = None
    ∨ Fallback.suspended s = Fallback.AwaitReadValue
      ∧ ∃ r, Fallback.race s = Some r)
   ∧ Fallback.settlements s = [] ∧ Fallback.disconnects s = 0)
  ∨ (Fallback.suspended s = Fallback.Completed
     ∧ length (Fallback.settlements s) = 1
     ∧ Fallback.disconnects s ≤ 1 ∧ Fallback.connected s = false).

(** A platform on which the link comes up and holds, and service
    discovery is then rejected with [e]. *)
Definition discovery_fails (e : JsError) : Platform :=
  {| bluetooth := true; requestDevice := None; connect := None;
     getPrimaryService := Some e; getCharacteristic := None;
     startNotifications := None; linkLost := false |}.

(** *** Tables *)

(** The names a rule lists under [key] are all among [declared]. *)
Definition names_declared (key : string) (declared : list string)
    (r : CropRules.Rule) : Prop :=
  match CropRules.conditions r !! key with
  | Some (CropRules.Allowed values) => Forall (λ v, v ∈ declared) values
  | Some (CropRules.Bound _) => False
  | None => True
  end.

(** The three crop lists of a rule name the same number of crops, at
    least one. *)
Definition aligned (en hi gu : list string) : Prop :=
  0 < length en ∧ length hi = length en ∧ length gu = length en.

(** Cut points in strictly increasing order. *)
Definition increasing (l : AppConfig.Levels) : Prop :=
  (AppConfig.low l < AppConfig.medium l)%Q
  ∧ (AppConfig.medium l < AppConfig.high l)%Q.

(** *** Readings *)

(** What the decoders produce: the placeholder pH, one channel copied
    into four fields, and two integers that fit an unsigned byte. *)
Definition snapshot (d : SensorData) : Prop :=
  pH d = 0%Q
  ∧ nitrogen d = tds d ∧ phosphorus d = tds d ∧ potassium d = tds d
  ∧ ∃ m e : Z,
      (0 <= m <= 255)%Z ∧ (0 <= e <= 255)%Z
      ∧ moisture d = inject_Z m ∧ tds d = inject_Z e.

(** *** Platforms *)

Definition succeeds (answer : option JsError) : bool :=
  match answer with
  | None => true
  | Some _ => false
  end.

(** Every call before the race succeeds. *)
Definition setup_ok (p : Platform) : bool :=
  bluetooth p && succeeds (requestDevice p) && succeeds (connect p)
  && succeeds (getPrimaryService p) && succeeds (getCharacteristic p)
  && succeeds (startNotifications p).

(** [connect] is reached and resolves. *)
Definition link_up (p : Platform) : bool :=
  bluetooth p && succeeds (requestDevice p) && succeeds (connect p).

(** [connect] is reached and resolves, and the link has not dropped when
    the setup ends. *)
Definition link_held (p : Platform) : bool :=
  link_up p && negb (linkLost p).

(** *** Phases of the second revision *)

(** Where a settlement of the second revision can come from: a
    notification of the schedule whose value decodes, or, the timer
    having fired, an answer of [readValue] in the schedule. *)
Definition from_schedule (events : list Fallback.Event) (r : Settlement)
  : Prop :=
  (∃ value data,
      Fallback.CharacteristicValueChanged (Some value) ∈ events
      ∧ decode_fallback value = Return data ∧ r = Fulfilled data)
  ∨ (Fallback.TimeoutElapsed ∈ events
     ∧ ∃ answer, Fallback.ReadValueSettled answer ∈ events
                 ∧ r = read_verdict answer).

(** The race is pending; the handler may be gone. *)
Definition race_pending (s : Fallback.Session) : Prop :=
  Fallback.suspended s = Fallback.AwaitRace
  ∧ Fallback.timeout s = true ∧ Fallback.timeoutPromise s = false
  ∧ Fallback.notifPromise s = None ∧ Fallback.race s = None
  ∧ Fallback.settlements s = []
  ∧ Fallback.readValues s = 0 ∧ Fallback.disconnects s = 0.

(** The call has completed, after the schedule [events]. *)
Definition completed (events : list Fallback.Event) (s : Fallback.Session)
  : Prop :=
  Fallback.suspended s = Fallback.Completed
  ∧ Fallback.connected s = false
  ∧ Fallback.disconnects s ≤ 1 ∧ Fallback.readValues s ≤ 1
  ∧ (Fallback.readValues s = 1 → Fallback.TimeoutElapsed ∈ events)
  ∧ ∃ r, Fallback.settlements s = [r] ∧ from_schedule events r.

(** The three phases of a call of the second revision whose setup
    succeeded, after the schedule [events]. *)
Definition phase (events : list Fallback.Event) (s : Fallback.Session)
  : Prop :=
  race_pending s
  ∨ (reading s ∧ Fallback.TimeoutElapsed ∈ events)
  ∨ completed events s.

(** *** Console *)

Definition is_disconnected (line : ConsoleLine) : bool :=
  match line with
  | LogDisconnected => true
  | _ => false
  end.

Definition is_fallback (line : ConsoleLine) : bool :=
  match line with
  | LogFallback => true
  | _ => false
  end.

(** The number of lines of the console that [f] recognises. *)
Definition count_lines (f : ConsoleLine → bool) (console : list ConsoleLine)
  : nat :=
  length (List.filter f console).

(** *** The two revisions side by side *)

(** An event of the first revision, seen by the second. *)
Definition same_event (ev : NotifyOnly.Event) : Fallback.Event :=
  match ev with
  | NotifyOnly.CharacteristicValueChanged value =>
      Fallback.CharacteristicValueChanged value
  | NotifyOnly.TimeoutElapsed => Fallback.TimeoutElapsed
  | NotifyOnly.GattServerDisconnected => Fallback.GattServerDisconnected
  end.

(** The timer has not fired and every value delivered has two bytes. *)
Definition well_formed_early (ev : NotifyOnly.Event) : Prop :=
  match ev with
  | NotifyOnly.CharacteristicValueChanged (Some value) => byteLength value = 2
  | NotifyOnly.TimeoutElapsed => False
  | _ => True
  end.

(** *** The race of the second revision in closed form *)

(** The timer fires in the schedule. *)
Definition timer_in (events : list Fallback.Event) : bool :=
  existsb (λ ev, match ev with
                 | Fallback.TimeoutElapsed => true
                 | _ => false
                 end) events.

(** What [Promise.race] holds after a schedule.  The first event that is
    the timer or a notification with a value decides: the timer settles
    the race with "timeout"; a notification whose value decodes settles it
    with the decoded reading; a notification whose value does not decode
    takes the handler away and leaves the race to the timer, if it ever
    fires. *)
Fixpoint race_of (events : list Fallback.Event)
  : option Fallback.RaceResult :=
  match events with
  | [] => None
  | Fallback.TimeoutElapsed :: _ => Some Fallback.TimedOut
  | Fallback.CharacteristicValueChanged (Some value) :: rest =>
      match decode_fallback value with
      | Return data => Some (Fallback.Snapshot data)
      | Throw _ => if timer_in rest then Some Fallback.TimedOut else None
      end
  | _ :: rest => race_of rest
  end.


(** * Properties *)

(** ** The payload decoders *)

Example parsePayload_42_17 :
  NotifyOnly.parsePayload (DataView_of [42; 17]%Z) = Return (42%Q, 17%Q).
Proof. reflexivity. Qed.

Example parsePayload_3 :
  NotifyOnly.parsePayload (DataView_of [1; 2; 3]%Z)
  = Throw (new_Error "Invalid BLE payload length: 3").
Proof. reflexivity. Qed.

Example parse2Bytes_3 :
  Fallback.parse2Bytes (DataView_of [1; 2; 3]%Z) = Return (1%Q, 2%Q).
Proof. reflexivity. Qed.

Lemma uint8_byte_of_Z (z : Z) :
  (0 <= z <= 255)%Z → uint8 (byte_of_Z z) = inject_Z z.
Proof.
  intros Hz. unfold uint8, byte_of_Z.
  rewrite Z.mod_small by lia.
  destruct (Byte.of_N (Z.to_N z)) as [b|] eqn:Hb.
  - apply Byte.to_of_N in Hb. simpl. rewrite Hb. f_equal. lia.
  - apply Byte.of_N_None_iff in Hb. lia.
Qed.

Lemma uint8_range (b : Byte.byte) :
  ∃ z : Z, (0 <= z <= 255)%Z ∧ uint8 b = inject_Z z.
Proof.
  exists (Z.of_N (Byte.to_N b)). split; [|reflexivity].
  pose proof (Byte.to_N_bounded b). lia.
Qed.

(** A view of two bytes is [[m; e]]. *)
Lemma byteLength_2 (value : DataView) :
  byteLength value = 2 → ∃ m e, value = [m; e].
Proof.
  destruct value as [|m [|e [|? ?]]]; simpl; try discriminate. eauto.
Qed.

Lemma parsePayload_pair (m e : Byte.byte) :
  NotifyOnly.parsePayload [m; e] = Return (uint8 m, uint8 e).
Proof. reflexivity. Qed.

Lemma parsePayload_invalid (value : DataView) :
  byteLength value ≠ 2 →
  NotifyOnly.parsePayload value
  = Throw (new_Error ("Invalid BLE payload length: " ++ show (byteLength value))).
Proof.
  intros Hlen. unfold NotifyOnly.parsePayload.
  destruct (Nat.eqb_spec (byteLength value) 2); [contradiction | reflexivity].
Qed.

Lemma parse2Bytes_prefix (m e : Byte.byte) (rest : list Byte.byte) :
  Fallback.parse2Bytes (m :: e :: rest) = Return (uint8 m, uint8 e).
Proof. reflexivity. Qed.

Lemma parse2Bytes_short (value : DataView) :
  byteLength value < 2 →
  Fallback.parse2Bytes value
  = Throw (new_Error ("Expected 2 bytes (moisture, ec) but got "
                        ++ show (byteLength value))).
Proof.
  intros Hlen. unfold Fallback.parse2Bytes.
  destruct (Nat.ltb_spec (byteLength value) 2); [reflexivity | lia].
Qed.


(** Claim C3, as stated, fails for the decoder of the second revision:
    a view of three bytes has a length other than 2 and decodes. *)
Lemma parse2Bytes_not_strict : ¬ strict_length_contract Fallback.parse2Bytes.
Proof.
  intros [_ Hfail].
  destruct (Hfail (DataView_of [1; 2; 3]%Z)) as [err Herr].
  - simpl. lia.
  - discriminate Herr.
Qed.

(** Claim C3, amended: [parsePayload] succeeds on exactly two bytes and
    throws its length error on every other length, shorter or longer;
    [parse2Bytes] throws its length error below two bytes and, from two
    bytes on, decodes the first two and ignores the rest. *)
Theorem decoder_length_contract :
  strict_length_contract NotifyOnly.parsePayload
  ∧ (∀ value, byteLength value ≠ 2 →
       NotifyOnly.parsePayload value
       = Throw (new_Error ("Invalid BLE payload length: "
                             ++ show (byteLength value))))
  ∧ (∀ value, byteLength value < 2 →
       Fallback.parse2Bytes value
       = Throw (new_Error ("Expected 2 bytes (moisture, ec) but got "
                             ++ show (byteLength value))))
  ∧ (∀ value, 2 ≤ byteLength value →
       Fallback.parse2Bytes value = NotifyOnly.parsePayload (take 2 value)
       ∧ ∃ r, Fallback.parse2Bytes value = Return r).
Proof.
  repeat split.
  - intros value Hlen.
    destruct (byteLength_2 value Hlen) as (m & e & ->). eauto.
  - intros value Hlen. rewrite parsePayload_invalid by done. eauto.
  - apply parsePayload_invalid.
  - apply parse2Bytes_short.
  - destruct value as [|m [|e rest]]; simpl in *; try lia. reflexivity.
  - destruct value as [|m [|e rest]]; simpl in *; try lia.
    rewrite parse2Bytes_prefix. eauto.
Qed.

Lemma decoder_length_contract_witness :
  NotifyOnly.parsePayload (DataView_of [1; 2; 3]%Z)
  = Throw (new_Error "Invalid BLE payload length: 3")
  ∧ Fallback.parse2Bytes (DataView_of [7]%Z)
    = Throw (new_Error "Expected 2 bytes (moisture, ec) but got 1")
  ∧ Fallback.parse2Bytes (DataView_of [1; 2; 3]%Z)
    = NotifyOnly.parsePayload (DataView_of [1; 2]%Z).
Proof.
  destruct decoder_length_contract as (_ & Hstrict & Hshort & Hlong).
  split; [|split].
  - apply (Hstrict (DataView_of [1; 2; 3]%Z)). simpl. lia.
  - apply (Hshort (DataView_of [7]%Z)). simpl. lia.
  - apply (Hlong (DataView_of [1; 2; 3]%Z)). simpl. lia.
Defined.

(** Claim C4: for all bytes [m] and [e] in [0,255], both decode pipelines
    map the view [[m, e]] to the reading with [moisture = m],
    [tds = nitrogen = phosphorus = potassium = e] and [pH = 0]. *)
Theorem decoder_mapping (m e : Z) :
  (0 <= m <= 255)%Z → (0 <= e <= 255)%Z →
  let reading :=
    {| pH := 0; moisture := inject_Z m; tds := inject_Z e;
       nitrogen := inject_Z e; phosphorus := inject_Z e;
       potassium := inject_Z e |} in
  decode_notifyOnly (DataView_of [m; e]) = Return reading
  ∧ decode_fallback (DataView_of [m; e]) = Return reading.
Proof.
  intros Hm He reading.
  unfold decode_notifyOnly, decode_fallback. simpl DataView_of.
  change (byte_of_Z <$> [m; e]) with [byte_of_Z m; byte_of_Z e].
  rewrite parsePayload_pair, parse2Bytes_prefix.
  rewrite !uint8_byte_of_Z by done. split; reflexivity.
Qed.

Lemma decoder_mapping_witness :
  decode_notifyOnly (DataView_of [42; 17]%Z)
  = Return {| pH := 0; moisture := 42; tds := 17; nitrogen := 17;
              phosphorus := 17; potassium := 17 |}
  ∧ decode_fallback (DataView_of [42; 17]%Z)
    = Return {| pH := 0; moisture := 42; tds := 17; nitrogen := 17;
                phosphorus := 17; potassium := 17 |}.
Proof. apply (decoder_mapping 42 17); lia. Defined.

(** Claim C9: on every view of exactly two bytes the pipeline of the
    first revision ([parsePayload], then [toSensorData]) and the pipeline
    of the second ([parse2Bytes], then [bytesToSensorData]) return the
    same [SensorData]. *)
Theorem decode_pipelines_agree (value : DataView) :
  byteLength value = 2 →
  decode_notifyOnly value = decode_fallback value
  ∧ ∃ data, decode_notifyOnly value = Return data.
Proof.
  intros Hlen. destruct (byteLength_2 value Hlen) as (m & e & ->).
  split; [reflexivity | eexists; reflexivity].
Qed.

Lemma decode_pipelines_agree_witness :
  decode_notifyOnly (DataView_of [42; 17]%Z)
  = decode_fallback (DataView_of [42; 17]%Z)
  ∧ ∃ data, decode_notifyOnly (DataView_of [42; 17]%Z) = Return data.
Proof. apply (decode_pipelines_agree (DataView_of [42; 17]%Z)). reflexivity. Defined.

(** ** The first revision: invariants of the race *)

Section NotifyOnlyRace.
Import NotifyOnly.

Lemma waiting_executor (c : bool) :
  waiting (executor (set_connected c idle)).
Proof. repeat split. Qed.

Lemma waiting_quiet (s : Session) (ev : Event) :
  waiting s → quiet1 ev → waiting (dispatch s ev).
Proof.
  intros (Ht & Hl & Hd & Hs & Hc) Hq.
  destruct ev as [[value|]| |]; try contradiction; simpl.
  - rewrite Hl. simpl. done.
  - done.
Qed.

Lemma waiting_quiets (pre : list Event) (s : Session) :
  waiting s → Forall quiet1 pre → waiting (foldl dispatch s pre).
Proof.
  revert s. induction pre as [|ev pre IH]; intros s Hs Hq; [done|].
  inversion Hq; subst. simpl. apply IH; [|done]. by apply waiting_quiet.
Qed.

Lemma cleanup_closed (s : Session) : closed (cleanup s).
Proof. unfold cleanup. simpl. by destruct (connected s). Qed.

Lemma cleanup_settlements (s : Session) :
  settlements (cleanup s) = settlements s.
Proof. unfold cleanup. simpl. by destruct (connected s). Qed.

Lemma cleanup_disconnects (s : Session) :
  disconnects (cleanup s)
  = if connected s then S (disconnects s) else disconnects s.
Proof. unfold cleanup. simpl. by destruct (connected s). Qed.

Lemma cleanup_connected (s : Session) : connected (cleanup s) = false.
Proof. unfold cleanup. simpl. by destruct (connected s) eqn:E. Qed.

(** The first event that is not quiet settles the promise and closes
    the session. *)
Lemma waiting_decisive (s : Session) (ev : Event) (r : Settlement) :
  waiting s → verdict1 ev = Some r →
  let s' := dispatch s ev in
  settlements s' = [r] ∧ closed s' ∧ connected s' = false
  ∧ disconnects s' = (if connected s then 1 else 0).
Proof.
  intros (Ht & Hl & Hd & Hs & Hc) Hv.
  destruct s as [t l c d st co]; simpl in *; subst.
  destruct ev as [[value|]| |]; simpl in Hv; try discriminate;
    injection Hv as <-; unfold closed; simpl.
  - unfold handler, decode_notifyOnly, cleanup.
    destruct (parsePayload value) as [[moisture ec]|err]; simpl;
      destruct c; simpl; done.
  - unfold timeout_callback, cleanup. simpl.
    destruct c; simpl; done.
Qed.

(** In a closed session no listener and no timer callback runs: every
    event leaves the settlements, the calls of [disconnect] and the
    console as they are. *)
Lemma closed_inert (s : Session) (ev : Event) :
  closed s →
  let s' := dispatch s ev in
  closed s' ∧ settlements s' = settlements s
  ∧ disconnects s' = disconnects s ∧ console s' = console s
  ∧ (connected s = false → connected s' = false).
Proof.
  intros [Ht Hl]. destruct ev as [value| |]; simpl.
  - rewrite Hl. done.
  - rewrite Ht. done.
  - done.
Qed.

Lemma closed_inerts (post : list Event) (s : Session) :
  closed s →
  let s' := foldl dispatch s post in
  closed s' ∧ settlements s' = settlements s
  ∧ disconnects s' = disconnects s ∧ console s' = console s
  ∧ (connected s = false → connected s' = false).
Proof.
  revert s. induction post as [|ev post IH]; intros s Hs; [done|].
  simpl. destruct (closed_inert s ev Hs) as (H1 & H2 & H3 & H4 & H5).
  destruct (IH _ H1) as (G1 & G2 & G3 & G4 & G5).
  repeat split; try apply G1; try congruence. auto.
Qed.

End NotifyOnlyRace.

(** ** The second revision: invariants of the race *)

Section FallbackRace.
Import Fallback.

Local Ltac unfold_body :=
  repeat progress
    (unfold handler, resolve_notif, resolve_timeout, settle_race,
       after_race, after_readValue, finally, decode_fallback,
       read_verdict in *;
     simpl in * ).

Local Ltac crush :=
  unfold_body;
  repeat (case_match; simplify_eq; unfold_body);
  try done.

Lemma racing_start (c : bool) : racing (start_race (set_connected c idle)).
Proof. repeat split. Qed.

Lemma racing_quiet (s : Session) (ev : Event) :
  racing s → quiet2 ev → racing (dispatch s ev).
Proof.
  intros (Ht & Hl & Hn & Htp & Hr & Hsu & Hd & Hrv & Hs) Hq.
  destruct s; simpl in *; subst.
  destruct ev as [[value|]| | |]; try contradiction; done.
Qed.

Lemma racing_quiets (pre : list Event) (s : Session) :
  racing s → Forall quiet2 pre → racing (foldl dispatch s pre).
Proof.
  revert s. induction pre as [|ev pre IH]; intros s Hs Hq; [done|].
  inversion Hq; subst. simpl. apply IH; [|done]. by apply racing_quiet.
Qed.

(** A notification that decodes wins the pending race: the call
    completes, without a read and with the timer still armed. *)
Lemma racing_notification (s : Session) (value : DataView) (data : SensorData) :
  racing s → decode_fallback value = Return data →
  let s' := dispatch s (CharacteristicValueChanged (Some value)) in
  race s' = Some (Snapshot data) ∧ suspended s' = Completed
  ∧ settlements s' = [Fulfilled data] ∧ readValues s' = 0
  ∧ timeout s' = true ∧ listener s' = false ∧ connected s' = false
  ∧ disconnects s' = (if connected s then 1 else 0).
Proof.
  intros (Ht & Hl & Hn & Htp & Hr & Hsu & Hd & Hrv & Hs) Hdec.
  destruct s; simpl in *; subst. crush.
Qed.

(** The timer wins the pending race: one read is started and the
    handler stays registered. *)
Lemma racing_timeout (s : Session) :
  racing s →
  let s' := dispatch s TimeoutElapsed in
  reading s' ∧ listener s' = true ∧ connected s' = connected s.
Proof.
  intros (Ht & Hl & Hn & Htp & Hr & Hsu & Hd & Hrv & Hs).
  destruct s; simpl in *; subst. done.
Qed.

(** While the read is in flight nothing but its answer moves the call. *)
Lemma reading_other (s : Session) (ev : Event) :
  reading s → not_a_read ev → reading (dispatch s ev).
Proof.
  intros (Ht & Htp & Hr & Hsu & Hd & Hrv & Hs) Hev.
  destruct s; simpl in *; subst.
  destruct ev as [[value|]| | |]; try contradiction; unfold reading; crush.
Qed.

Lemma reading_others (mid : list Event) (s : Session) :
  reading s → Forall not_a_read mid → reading (foldl dispatch s mid).
Proof.
  revert s. induction mid as [|ev mid IH]; intros s Hs Hq; [done|].
  inversion Hq; subst. simpl. apply IH; [|done]. by apply reading_other.
Qed.

Lemma reading_settled (s : Session) (value : Result DataView) :
  reading s →
  let s' := dispatch s (ReadValueSettled value) in
  suspended s' = Completed ∧ settlements s' = [read_verdict value]
  ∧ readValues s' = 1 ∧ race s' = Some TimedOut ∧ connected s' = false
  ∧ disconnects s' = (if connected s then 1 else 0).
Proof.
  intros (Ht & Htp & Hr & Hsu & Hd & Hrv & Hs).
  destruct s; simpl in *; subst. crush.
Qed.

(** A settled race keeps its result. *)
Lemma race_stable (s : Session) (ev : Event) (r : RaceResult) :
  race s = Some r → race (dispatch s ev) = Some r.
Proof.
  intros Hr. destruct s; simpl in *; subst.
  destruct ev as [[value|]| | |]; crush.
Qed.

Lemma race_stables (post : list Event) (s : Session) (r : RaceResult) :
  race s = Some r → race (foldl dispatch s post) = Some r.
Proof.
  revert s. induction post as [|ev post IH]; intros s Hs; [done|].
  simpl. apply IH. by apply race_stable.
Qed.

(** Once the body has completed, no event settles the returned promise
    again, disconnects again or reads again. *)
Lemma completed_inert (s : Session) (ev : Event) :
  suspended s = Completed →
  let s' := dispatch s ev in
  suspended s' = Completed ∧ settlements s' = settlements s
  ∧ disconnects s' = disconnects s ∧ readValues s' = readValues s
  ∧ (connected s = false → connected s' = false).
Proof.
  intros Hsu. destruct s; simpl in *; subst.
  destruct ev as [[value|]| | |]; crush.
Qed.

Lemma completed_inerts (post : list Event) (s : Session) :
  suspended s = Completed →
  let s' := foldl dispatch s post in
  suspended s' = Completed ∧ settlements s' = settlements s
  ∧ disconnects s' = disconnects s ∧ readValues s' = readValues s
  ∧ (connected s = false → connected s' = false).
Proof.
  revert s. induction post as [|ev post IH]; intros s Hs; [done|].
  simpl. destruct (completed_inert s ev Hs) as (H1 & H2 & H3 & H4 & H5).
  destruct (IH _ H1) as (G1 & G2 & G3 & G4 & G5).
  repeat split; try congruence. auto.
Qed.

(** From the start of the fallback read on: the race stays with the
    timer, and the call completes at most once, with one read. *)
Lemma reading_run (post : list Event) (s : Session) :
  reading s →
  let s' := foldl dispatch s post in
  race s' = Some TimedOut ∧ length (settlements s') ≤ 1
  ∧ disconnects s' ≤ 1 ∧ readValues s' = 1.
Proof.
  revert s. induction post as [|ev post IH]; intros s Hs.
  - destruct Hs as (_ & _ & Hr & _ & Hd & Hrv & Hst). simpl.
    rewrite Hr, Hd, Hrv, Hst. simpl. repeat split; lia.
  - simpl. destruct ev as [value| |value|].
    1, 2, 4: apply IH; by apply reading_other.
    destruct (reading_settled s value Hs) as (H1 & H2 & H3 & H4 & _ & H6).
    destruct (completed_inerts post _ H1) as (_ & G2 & G3 & G4 & _).
    cbv zeta. rewrite G2, G3, G4, H2, H3, H6.
    split; [by apply race_stables|]. simpl. destruct (connected s); lia.
Qed.

(** The invariant behind the teardown of the second revision: from the
    start of the race on, under every schedule, the call has either not
    completed and not disconnected, or completed once with the link
    down and at most one call of [disconnect]. *)
Lemma teardown_step (s : Session) (ev : Event) :
  torn_down_or_pending s → torn_down_or_pending (dispatch s ev).
Proof.
  unfold torn_down_or_pending. intros H.
  destruct s; simpl in *.
  destruct H as [(Hsu & Hst & Hd)|(Hsu & Hst & Hd & Hc)];
    [destruct Hsu as [(-> & ->)|(-> & r & ->)]|];
    subst; destruct ev as [[value|]| | |]; crush; eauto 10.
Qed.

Lemma teardown_run (events : list Event) (s : Session) :
  torn_down_or_pending s → torn_down_or_pending (foldl dispatch s events).
Proof.
  revert s. induction events as [|ev events IH]; intros s Hs; [done|].
  simpl. apply IH. by apply teardown_step.
Qed.

End FallbackRace.

(** ** The acquisition race *)

Lemma notifyOnly_ready (events : list NotifyOnly.Event) :
  NotifyOnly.connectToESP32 ready events
  = foldl NotifyOnly.dispatch
      (NotifyOnly.executor (NotifyOnly.set_connected true NotifyOnly.idle))
      events.
Proof. reflexivity. Qed.

Lemma fallback_ready (events : list Fallback.Event) :
  Fallback.connectToESP32 ready events
  = foldl Fallback.dispatch
      (Fallback.start_race (Fallback.set_connected true Fallback.idle))
      events.
Proof. reflexivity. Qed.

(** A JavaScript error is never its own cause. *)
Lemma cause_of_irreflexive (e : JsError) : cause_of e ≠ Some e.
Proof.
  intros H. assert (Hd : cause_depth e = S (cause_depth e)); [|lia].
  destruct e as [m [c|]]; simpl in H; [|discriminate].
  injection H as H. rewrite H at 1. simpl. by rewrite H.
Qed.

(** Claim C1, as stated, fails in the second revision.  After the timer
    has won, the handler is still registered and a late notification
    still runs it; after a notification has won, the timer is still
    armed. *)
Lemma fallback_loser_not_cancelled :
  ¬ loser_is_cancelled (Fallback.connectToESP32 ready [Fallback.TimeoutElapsed])
  ∧ ¬ loser_is_cancelled
        (Fallback.connectToESP32 ready
           [Fallback.CharacteristicValueChanged (Some (DataView_of [42; 17]%Z))]).
Proof.
  split.
  - intros [Htimer _]. destruct (Htimer eq_refl) as [Hl _]. discriminate Hl.
  - intros [_ Hnotif]. specialize (Hnotif _ eq_refl). discriminate Hnotif.
Qed.




(** Claim C7, as stated, fails: when the fallback read is rejected, the
    call is rejected with the very error of the read, which does not
    carry itself as a cause. *)
Lemma fallback_read_failure_not_wrapped :
  ¬ fails_with_cause
      (Fallback.connectToESP32 ready
         [Fallback.TimeoutElapsed;
          Fallback.ReadValueSettled (Throw (new_Error "GATT operation failed"))])
      (new_Error "GATT operation failed").
Proof.
  intros (err & Hp & Hc). simpl in Hp.
  injection Hp as <-. discriminate Hc.
Qed.

(** ** Teardown *)

(** The second revision tears the link down on every outcome: under every
    platform and every schedule, [disconnect] is called at most once and
    a settled call never leaves the link up. *)
Lemma fallback_teardown (p : Platform) (events : list Fallback.Event) :
  let s := Fallback.connectToESP32 p events in
  Fallback.disconnects s ≤ 1
  ∧ (Fallback.settlements s ≠ [] → Fallback.connected s = false).
Proof.
  unfold Fallback.connectToESP32.
  assert (H0 : torn_down_or_pending (Fallback.setup p)).
  { unfold Fallback.setup, torn_down_or_pending.
    destruct (bluetooth p), (requestDevice p), (connect p),
      (getPrimaryService p), (getCharacteristic p), (startNotifications p),
      (linkLost p); simpl; auto 10. }
  destruct (teardown_run events _ H0) as [(_ & Hst & Hd)|(_ & Hst & Hd & Hc)].
  - cbv zeta. rewrite Hd. split; [lia | congruence].
  - auto.
Qed.

(** The first revision tears the link down on every outcome of the race:
    the event that settles the call disconnects iff the link is up. *)
Lemma notifyOnly_race_teardown
    (pre post : list NotifyOnly.Event) (ev : NotifyOnly.Event) (r : Settlement) :
  Forall quiet1 pre → verdict1 ev = Some r →
  let before := NotifyOnly.connectToESP32 ready pre in
  let s := NotifyOnly.connectToESP32 ready (pre ++ ev :: post) in
  NotifyOnly.connected s = false
  ∧ NotifyOnly.disconnects s
    = (if NotifyOnly.connected before then 1 else 0).
Proof.
  intros Hpre Hev before s. subst before s.
  rewrite !notifyOnly_ready, foldl_app. cbn [foldl].
  pose proof (waiting_quiets pre _ (waiting_executor true) Hpre) as Hw.
  destruct (waiting_decisive _ ev r Hw Hev) as (_ & H2 & H3 & H4).
  destruct (closed_inerts post _ H2) as (_ & _ & G3 & _ & G5).
  rewrite G3, H4. auto.
Qed.

(** Claim C5 at the failing input: the link comes up and holds, and
    service discovery is rejected.  When the call of the first revision
    is rejected the link is up and [disconnect] has not been called, and
    whatever happens afterwards the first revision never calls it; the
    second revision has disconnected once by the time its call is
    rejected. *)
Theorem notifyOnly_discovery_failure_leaks_link (e : JsError) :
  let s1 := NotifyOnly.connectToESP32 (discovery_fails e) [] in
  let s2 := Fallback.connectToESP32 (discovery_fails e) [] in
  (NotifyOnly.promise s1 = Some (Rejected e)
   ∧ NotifyOnly.connected s1 = true ∧ NotifyOnly.disconnects s1 = 0)
  ∧ (Fallback.promise s2 = Some (Rejected e)
     ∧ Fallback.connected s2 = false ∧ Fallback.disconnects s2 = 1)
  ∧ (∀ events1,
       NotifyOnly.promise (NotifyOnly.connectToESP32 (discovery_fails e) events1)
       = Some (Rejected e)
       ∧ NotifyOnly.disconnects
           (NotifyOnly.connectToESP32 (discovery_fails e) events1)
         = 0).
Proof.
  split; [done|]. split; [done|]. intros events1.
  unfold NotifyOnly.connectToESP32, NotifyOnly.promise.
  destruct (closed_inerts events1 (NotifyOnly.setup (discovery_fails e)))
    as (_ & H2 & H3 & _); [done|].
  by rewrite H2, H3.
Qed.

(** ** Decode failures *)

(** Claim C6 at the failing input: a notification of one byte in the
    second revision.  The error of the decoder leaves through the event
    dispatcher; the call stays pending with the link up, and a later
    fallback read lets it succeed.  The first revision rejects the call
    with the decoder's error after [cleanup]. *)
Theorem fallback_malformed_notification_swallowed :
  let malformed := DataView_of [42]%Z in
  let err2 := new_Error "Expected 2 bytes (moisture, ec) but got 1" in
  let s := Fallback.connectToESP32 ready
             [Fallback.CharacteristicValueChanged (Some malformed)] in
  let s' := Fallback.connectToESP32 ready
              [Fallback.CharacteristicValueChanged (Some malformed);
               Fallback.TimeoutElapsed;
               Fallback.ReadValueSettled (Return (DataView_of [42; 17]%Z))] in
  let s1 := NotifyOnly.connectToESP32 ready
              [NotifyOnly.CharacteristicValueChanged (Some malformed)] in
  Fallback.parse2Bytes malformed = Throw err2
  ∧ (Fallback.promise s = None ∧ Fallback.uncaught s = [err2]
     ∧ Fallback.connected s = true ∧ Fallback.disconnects s = 0)
  ∧ Fallback.promise s' = Some (Fulfilled (Fallback.bytesToSensorData 42 17))
  ∧ (NotifyOnly.promise s1
     = Some (Rejected (new_Error "Invalid BLE payload length: 1"))
     ∧ NotifyOnly.connected s1 = false ∧ NotifyOnly.disconnects s1 = 1).
Proof. repeat split. Qed.

(** The decode failures that do propagate: a malformed notification in
    the first revision and a malformed fallback read in the second reject
    the call with the decoder's error, with the link down. *)
Lemma decode_failure_propagates :
  (∀ pre value err post,
     Forall quiet1 pre → NotifyOnly.parsePayload value = Throw err →
     let s := NotifyOnly.connectToESP32 ready
                (pre ++ NotifyOnly.CharacteristicValueChanged (Some value) :: post) in
     NotifyOnly.settlements s = [Rejected err] ∧ NotifyOnly.connected s = false)
  ∧ (∀ pre mid value err post,
       Forall quiet2 pre → Forall not_a_read mid →
       Fallback.parse2Bytes value = Throw err →
       let s := Fallback.connectToESP32 ready
                  (pre ++ Fallback.TimeoutElapsed
                       :: mid ++ Fallback.ReadValueSettled (Return value) :: post) in
       Fallback.settlements s = [Rejected err] ∧ Fallback.connected s = false).
Proof.
  split.
  - intros pre value err post Hpre Hdec s. subst s.
    rewrite notifyOnly_ready, foldl_app. cbn [foldl].
    pose proof (waiting_quiets pre _ (waiting_executor true) Hpre) as Hw.
    assert (Hv : verdict1 (NotifyOnly.CharacteristicValueChanged (Some value))
                 = Some (Rejected err)).
    { simpl. unfold decode_notifyOnly. by rewrite Hdec. }
    destruct (waiting_decisive _ _ _ Hw Hv) as (H1 & H2 & H3 & _).
    destruct (closed_inerts post _ H2) as (_ & G2 & _ & _ & G5).
    rewrite G2, H1. auto.
  - intros pre mid value err post Hpre Hmid Hdec s. subst s.
    rewrite fallback_ready, foldl_app. cbn [foldl].
    rewrite foldl_app. cbn [foldl].
    pose proof (racing_quiets pre _ (racing_start true) Hpre) as Hr.
    destruct (racing_timeout _ Hr) as (Hrd & _ & _).
    pose proof (reading_others mid _ Hrd Hmid) as Hrd'.
    destruct (reading_settled _ (Return value) Hrd')
      as (H1 & H2 & _ & _ & H5 & _).
    destruct (completed_inerts post _ H1) as (_ & G2 & _ & _ & G5).
    rewrite G2, H2. unfold read_verdict, decode_fallback. rewrite Hdec. auto.
Qed.

(** ** Empty notifications *)

Lemma notifyOnly_empty_event (s : NotifyOnly.Session) :
  NotifyOnly.dispatch s (NotifyOnly.CharacteristicValueChanged None) = s.
Proof. simpl. by destruct (NotifyOnly.listener s). Qed.

Lemma fallback_empty_event (s : Fallback.Session) :
  Fallback.dispatch s (Fallback.CharacteristicValueChanged None) = s.
Proof. simpl. by destruct (Fallback.listener s). Qed.

(** Claim C10: in both revisions a value-changed event whose
    characteristic carries no value leaves the session exactly as it is
    (nothing is resolved or rejected, nothing is torn down, timer and
    handler stay as they are), so every execution proceeds as if the
    event had not occurred and a later notification or the timer still
    decides. *)
Theorem empty_notification_inert :
  (∀ s, NotifyOnly.dispatch s (NotifyOnly.CharacteristicValueChanged None) = s)
  ∧ (∀ s, Fallback.dispatch s (Fallback.CharacteristicValueChanged None) = s)
  ∧ (∀ p pre post,
       NotifyOnly.connectToESP32 p
         (pre ++ NotifyOnly.CharacteristicValueChanged None :: post)
       = NotifyOnly.connectToESP32 p (pre ++ post))
  ∧ (∀ p pre post,
       Fallback.connectToESP32 p
         (pre ++ Fallback.CharacteristicValueChanged None :: post)
       = Fallback.connectToESP32 p (pre ++ post)).
Proof.
  split; [apply notifyOnly_empty_event|].
  split; [apply fallback_empty_event|].
  split; intros p pre post.
  - unfold NotifyOnly.connectToESP32.
    rewrite !foldl_app. cbn [foldl]. by rewrite notifyOnly_empty_event.
  - unfold Fallback.connectToESP32.
    rewrite !foldl_app. cbn [foldl]. by rewrite fallback_empty_event.
Qed.

(** ** The rule table *)

Section Scenario.
Import CropRules.

(** The bounds of the Rice rule, read from the table. *)
Example rice_rule_bounds :
  conditions Rice !! "pHMin" = Some (Bound 5.5)
  ∧ conditions Rice !! "pHMax" = Some (Bound 7.5)
  ∧ conditions Rice !! "moistureMin" = Some (Bound 50)
  ∧ conditions Rice !! "nMin" = Some (Bound 40)
  ∧ conditions Rice !! "pMin" = Some (Bound 25)
  ∧ conditions Rice !! "kMin" = Some (Bound 40)
  ∧ conditions Rice !! "dominantWeather" = Some (Allowed ["rainy"; "humid"])
  ∧ conditions Rice !! "season" = Some (Allowed ["kharif"]).
Proof. vm_compute. repeat split. Qed.

(** The misspelled key of the Sugarcane rule binds no bound the engine
    reads. *)
Example sugarcane_pMin_absent :
  conditions Sugarcane !! "pMin" = None
  ∧ conditions Sugarcane !! "pMIn" = Some (Bound 40).
Proof. vm_compute. repeat split. Qed.

(** Claim C8: for the reading [{pH: 6.5, moisture: 55, nitrogen: 60,
    phosphorus: 35, potassium: 55}] (whatever its [tds]) and the context
    [{weather: "rainy", season: "kharif"}], [recommend] returns exactly
    [["Rice"; "Paddy"]].  Wheat, declared first, fails, and fails on its
    weather constraint only (under a sunny sky it would match); Rice,
    declared second, matches; no later rule and no default takes part
    in the result. *)
Theorem rice_scenario (t : number) (later : list Rule) (fallback : Default) :
  let reading :=
    {| pH := 6.5; moisture := 55; tds := t; nitrogen := 60;
       phosphorus := 35; potassium := 55 |} in
  let context := {| weather := "rainy"; season := "kharif" |} in
  recommend reading context = ["Rice"; "Paddy"]
  ∧ (∃ rest, rules CROP_RECOMMENDATIONS = Wheat :: Rice :: rest)
  ∧ matches reading context Wheat = false
  ∧ one_of (conditions Wheat) "dominantWeather" (weather context) = false
  ∧ matches reading {| weather := "sunny"; season := "kharif" |} Wheat = true
  ∧ matches reading context Rice = true
  ∧ recommend_from {| rules := Wheat :: Rice :: later; default := fallback |}
      reading context
    = ["Rice"; "Paddy"].
Proof.
  intros reading context.
  assert (Hw : matches reading context Wheat = false) by (vm_compute; done).
  assert (Hr : matches reading context Rice = true) by (vm_compute; done).
  split; [vm_compute; done|].
  split; [eexists; reflexivity|].
  split; [done|].
  split; [vm_compute; done|].
  split; [vm_compute; done|].
  split; [done|].
  unfold recommend_from. cbn [rules find]. by rewrite Hw, Hr.
Qed.

End Scenario.

(** * Further properties *)

(** ** The tables *)

Section Tables.
Import CropRules.

(** X1: every season and every weather a rule names is the [value] of an
    option that [APP_CONFIG] declares, and each such constraint is an
    array of names. *)
Theorem rules_name_declared_options :
  Forall (names_declared "season"
            (AppConfig.value <$> AppConfig.seasons AppConfig.APP_CONFIG))
         (rules CROP_RECOMMENDATIONS)
  ∧ Forall (names_declared "dominantWeather"
              (AppConfig.value <$> AppConfig.weatherOptions AppConfig.APP_CONFIG))
           (rules CROP_RECOMMENDATIONS).
Proof.
  split; repeat constructor; unfold names_declared.
  all: match goal with
       | |- context [ ?m !! ?k ] =>
           let v := eval vm_compute in (m !! k) in
           change (m !! k) with v
       end; cbv beta iota; try exact I.
  all: apply (bool_decide_unpack _); vm_compute; exact I.
Qed.

(** X2: every rule, and the default, lists as many crops in Hindi and in
    Gujarati as in English, and at least one. *)
Theorem crop_lists_aligned :
  Forall (λ r, aligned (crops r) (cropsHi r) (cropsGu r))
         (rules CROP_RECOMMENDATIONS)
  ∧ aligned (default_cropsEn (default CROP_RECOMMENDATIONS))
            (default_cropsHi (default CROP_RECOMMENDATIONS))
            (default_cropsGu (default CROP_RECOMMENDATIONS)).
Proof. split; repeat constructor. Qed.

(** X3: no crop is listed by two rules, and within each list of options
    ([seasons], [weatherOptions], [landUnits]) no [value] occurs twice. *)
Theorem names_are_unique :
  NoDup (concat (crops <$> rules CROP_RECOMMENDATIONS))
  ∧ NoDup (AppConfig.value <$> AppConfig.seasons AppConfig.APP_CONFIG)
  ∧ NoDup (AppConfig.value <$> AppConfig.weatherOptions AppConfig.APP_CONFIG)
  ∧ NoDup (AppConfig.value <$> AppConfig.landUnits AppConfig.APP_CONFIG).
Proof.
  repeat split; apply (bool_decide_unpack _); vm_compute; exact I.
Qed.

(** X4: the cut points of nitrogen, phosphorus, potassium and moisture
    increase strictly from low to high, the optimal pH lies strictly
    inside the pH range, and every fertilizer doses more for a very low
    level than for a low one. *)
Theorem thresholds_ordered :
  let t := AppConfig.thresholds AppConfig.APP_CONFIG in
  let f := AppConfig.fertilizers AppConfig.APP_CONFIG in
  increasing (AppConfig.nitrogen t) ∧ increasing (AppConfig.phosphorus t)
  ∧ increasing (AppConfig.potassium t) ∧ increasing (AppConfig.moisture t)
  ∧ (AppConfig.min (AppConfig.pH t) < AppConfig.optimal (AppConfig.pH t))%Q
  ∧ (AppConfig.optimal (AppConfig.pH t) < AppConfig.max (AppConfig.pH t))%Q
  ∧ (AppConfig.lowN (AppConfig.urea f) < AppConfig.veryLowN (AppConfig.urea f))%Q
  ∧ (AppConfig.lowP (AppConfig.dap f) < AppConfig.veryLowP (AppConfig.dap f))%Q
  ∧ (AppConfig.lowK (AppConfig.mop f) < AppConfig.veryLowK (AppConfig.mop f))%Q.
Proof. cbv zeta. unfold increasing. repeat split. Qed.

End Tables.

(** ** The decoders, further *)

Lemma uint8_inj (a b : Byte.byte) : uint8 a = uint8 b → a = b.
Proof.
  unfold uint8, inject_Z. intros H. injection H as H.
  apply N2Z.inj in H.
  assert (Hs : Some a = Some b); [|by injection Hs].
  by rewrite <- (Byte.of_to_N a), <- (Byte.of_to_N b), H.
Qed.

(** What a successful decode says about the view. *)
Lemma decode_notifyOnly_inv (value : DataView) (d : SensorData) :
  decode_notifyOnly value = Return d →
  ∃ m e, value = [m; e] ∧ d = NotifyOnly.toSensorData (uint8 m) (uint8 e).
Proof.
  unfold decode_notifyOnly, NotifyOnly.parsePayload.
  destruct value as [|m [|e [|x rest]]]; simpl; try discriminate.
  intros H. injection H as <-. eauto.
Qed.

Lemma decode_fallback_inv (value : DataView) (d : SensorData) :
  decode_fallback value = Return d →
  ∃ m e rest, value = m :: e :: rest
              ∧ d = Fallback.bytesToSensorData (uint8 m) (uint8 e).
Proof.
  unfold decode_fallback, Fallback.parse2Bytes.
  destruct value as [|m [|e rest]]; simpl; try discriminate.
  intros H. injection H as <-. eauto.
Qed.

Lemma snapshot_of_bytes (m e : Byte.byte) :
  snapshot (NotifyOnly.toSensorData (uint8 m) (uint8 e))
  ∧ snapshot (Fallback.bytesToSensorData (uint8 m) (uint8 e)).
Proof.
  destruct (uint8_range m) as (zm & Hm & Em).
  destruct (uint8_range e) as (ze & He & Ee).
  split; repeat split; simpl; exists zm, ze; auto.
Qed.

Lemma decode_snapshot (value : DataView) (d : SensorData) :
  decode_notifyOnly value = Return d ∨ decode_fallback value = Return d →
  snapshot d.
Proof.
  intros [H|H].
  - destruct (decode_notifyOnly_inv _ _ H) as (m & e & _ & ->).
    apply snapshot_of_bytes.
  - destruct (decode_fallback_inv _ _ H) as (m & e & rest & _ & ->).
    apply snapshot_of_bytes.
Qed.

(** X5: whatever the view, a reading that either pipeline returns has the
    placeholder pH 0, the same value in tds, nitrogen, phosphorus and
    potassium, and integer moisture and tds between 0 and 255. *)
Theorem decoded_reading_is_snapshot (value : DataView) (d : SensorData) :
  decode_notifyOnly value = Return d ∨ decode_fallback value = Return d →
  snapshot d.
Proof. apply decode_snapshot. Qed.

Lemma decoded_reading_is_snapshot_witness :
  snapshot {| pH := 0; moisture := 42; tds := 17; nitrogen := 17;
              phosphorus := 17; potassium := 17 |}.
Proof.
  apply (decoded_reading_is_snapshot (DataView_of [42; 17]%Z)).
  left. reflexivity.
Defined.

(** X6: the decoders lose nothing of the two bytes they read.  Two views
    that [parsePayload] and [toSensorData] map to the same reading are
    equal; two views that [parse2Bytes] and [bytesToSensorData] map to
    the same reading agree on their first two bytes. *)
Theorem decode_injective (v1 v2 : DataView) (d : SensorData) :
  (decode_notifyOnly v1 = Return d → decode_notifyOnly v2 = Return d →
   v1 = v2)
  ∧ (decode_fallback v1 = Return d → decode_fallback v2 = Return d →
     take 2 v1 = take 2 v2).
Proof.
  split; intros H1 H2.
  - destruct (decode_notifyOnly_inv _ _ H1) as (m1 & e1 & -> & Hd1).
    destruct (decode_notifyOnly_inv _ _ H2) as (m2 & e2 & -> & Hd2).
    rewrite Hd1 in Hd2.
    pose proof (f_equal moisture Hd2) as Hm.
    pose proof (f_equal tds Hd2) as He. simpl in Hm, He.
    by rewrite (uint8_inj _ _ Hm), (uint8_inj _ _ He).
  - destruct (decode_fallback_inv _ _ H1) as (m1 & e1 & r1 & -> & Hd1).
    destruct (decode_fallback_inv _ _ H2) as (m2 & e2 & r2 & -> & Hd2).
    rewrite Hd1 in Hd2.
    pose proof (f_equal moisture Hd2) as Hm.
    pose proof (f_equal tds Hd2) as He. simpl in Hm, He. simpl.
    by rewrite (uint8_inj _ _ Hm), (uint8_inj _ _ He).
Qed.

Lemma decode_injective_witness :
  take 2 (DataView_of [42; 17; 9]%Z) = take 2 (DataView_of [42; 17]%Z).
Proof.
  apply (decode_injective (DataView_of [42; 17; 9]%Z) (DataView_of [42; 17]%Z)
           (Fallback.bytesToSensorData 42 17)); reflexivity.
Defined.

(** X7: the placeholder pH keeps every decoded reading out of every pH
    window of the configuration.  Each rule of the table carries a
    numeric [pHMin], and the pH of a reading that either pipeline returns
    lies strictly below it, as it lies below the minimum of the pH
    threshold. *)
Theorem decoded_pH_below_every_rule (value : DataView) (d : SensorData) :
  decode_notifyOnly value = Return d ∨ decode_fallback value = Return d →
  Forall (λ r, ∃ b, CropRules.conditions r !! "pHMin" = Some (CropRules.Bound b)
                    ∧ (pH d < b)%Q)
         (CropRules.rules CropRules.CROP_RECOMMENDATIONS)
  ∧ (pH d < AppConfig.min (AppConfig.pH (AppConfig.thresholds AppConfig.APP_CONFIG)))%Q.
Proof.
  intros H. destruct (decode_snapshot _ _ H) as (-> & _).
  split; [|reflexivity].
  repeat constructor.
  all: eexists; split; [vm_compute; reflexivity | reflexivity].
Qed.

Lemma decoded_pH_below_every_rule_witness :
  (pH (NotifyOnly.toSensorData 42 17)
   < AppConfig.min (AppConfig.pH (AppConfig.thresholds AppConfig.APP_CONFIG)))%Q.
Proof.
  apply (decoded_pH_below_every_rule (DataView_of [42; 17]%Z)).
  left. reflexivity.
Defined.

(** ** The second revision under every schedule *)

Section FallbackPhases.
Import Fallback.

Local Ltac open_body :=
  repeat progress
    (unfold handler, resolve_notif, resolve_timeout, settle_race,
       after_race, after_readValue, finally, decode_fallback,
       read_verdict in *;
     simpl in * ).

Lemma race_pending_start (c : bool) :
  race_pending (start_race (set_connected c idle)).
Proof. repeat split. Qed.

(** One event on a pending race: the race stays pending, or the timer
    starts the read, or a notification that decodes completes the call. *)
Lemma race_pending_step (s : Session) (ev : Event) :
  race_pending s →
  race_pending (dispatch s ev)
  ∨ (ev = TimeoutElapsed ∧ reading (dispatch s ev))
  ∨ (∃ value data,
        ev = CharacteristicValueChanged (Some value)
        ∧ decode_fallback value = Return data
        ∧ suspended (dispatch s ev) = Completed
        ∧ settlements (dispatch s ev) = [Fulfilled data]
        ∧ connected (dispatch s ev) = false
        ∧ disconnects (dispatch s ev) ≤ 1
        ∧ readValues (dispatch s ev) = 0).
Proof.
  intros (Hsu & Ht & Htp & Hn & Hr & Hst & Hrv & Hd).
  destruct s; simpl in *; subst.
  destruct ev as [[value|]| |answer|].
  - destruct listener0; [|by left].
    destruct (parse2Bytes value) as [[m e]|err] eqn:Hp.
    + right; right. exists value, (bytesToSensorData m e).
      open_body. rewrite Hp. simpl.
      destruct connected0; simpl; repeat split; lia.
    + left. open_body. rewrite Hp. done.
  - left. simpl. by destruct listener0.
  - right; left. done.
  - by left.
  - by left.
Qed.

Lemma from_schedule_app (l1 l2 : list Event) (r : Settlement) :
  from_schedule l1 r → from_schedule (l1 ++ l2) r.
Proof.
  intros [(value & data & Hin & Hdec & ->)|(Ht & answer & Hin & ->)].
  - left. exists value, data. rewrite elem_of_app. auto.
  - right. split; [apply elem_of_app; auto|].
    exists answer. split; [apply elem_of_app; auto | done].
Qed.

Lemma phase_step (done : list Event) (s : Session) (ev : Event) :
  phase done s → phase (done ++ [ev]) (dispatch s ev).
Proof.
  intros [Hp|[[Hrd Ht]|Hc]].
  - destruct (race_pending_step s ev Hp)
      as [H|[[-> H]|(value & data & -> & Hdec & H1 & H2 & H3 & H4 & H5)]].
    + by left.
    + right; left. split; [done|].
      apply elem_of_app. right. by apply list_elem_of_singleton.
    + right; right.
      split; [done|]. split; [done|]. split; [done|].
      split; [lia|]. split; [intros; lia|].
      exists (Fulfilled data). split; [done|]. left.
      exists value, data. split; [|done].
      apply elem_of_app. right. by apply list_elem_of_singleton.
  - destruct ev as [value| |answer|].
    1, 2, 4: right; left; split;
      [by apply reading_other | apply elem_of_app; auto].
    destruct (reading_settled s answer Hrd) as (H1 & H2 & H3 & _ & H5 & H6).
    right; right.
    split; [done|]. split; [done|].
    split; [rewrite H6; destruct (connected s); lia|].
    split; [lia|]. split; [intros _; apply elem_of_app; auto|].
    exists (read_verdict answer). split; [done|]. right.
    split; [apply elem_of_app; auto|].
    exists answer. split; [|done].
    apply elem_of_app. right. by apply list_elem_of_singleton.
  - destruct Hc as (H1 & H2 & H3 & H4 & H5 & r & H6 & H7).
    destruct (completed_inert s ev H1) as (G1 & G2 & G3 & G4 & G5).
    right; right.
    split; [done|]. split; [by apply G5|].
    split; [lia|]. split; [lia|].
    split; [rewrite G4; intros H; apply elem_of_app; auto|].
    exists r. split; [congruence|]. by apply from_schedule_app.
Qed.

Lemma phase_run (events done : list Event) (s : Session) :
  phase done s → phase (done ++ events) (foldl dispatch s events).
Proof.
  revert done s. induction events as [|ev events IH]; intros done s Hp.
  - by rewrite app_nil_r.
  - simpl. rewrite cons_middle, app_assoc. apply IH. by apply phase_step.
Qed.

End FallbackPhases.

(** ** Setup *)

Lemma notifyOnly_started (p : Platform) :
  setup_ok p = true →
  NotifyOnly.setup p
  = NotifyOnly.executor
      (NotifyOnly.set_connected (negb (linkLost p)) NotifyOnly.idle).
Proof.
  unfold setup_ok, NotifyOnly.setup.
  destruct (bluetooth p), (requestDevice p), (connect p),
    (getPrimaryService p), (getCharacteristic p), (startNotifications p);
    simpl; done.
Qed.

Lemma fallback_started (p : Platform) :
  setup_ok p = true →
  Fallback.setup p
  = Fallback.start_race
      (Fallback.set_connected (negb (linkLost p)) Fallback.idle).
Proof.
  unfold setup_ok, Fallback.setup.
  destruct (bluetooth p), (requestDevice p), (connect p),
    (getPrimaryService p), (getCharacteristic p), (startNotifications p);
    simpl; done.
Qed.

Lemma notifyOnly_failed (p : Platform) :
  setup_ok p = false →
  ∃ e, NotifyOnly.setup p
       = NotifyOnly.reject e
           (NotifyOnly.set_connected (link_held p) NotifyOnly.idle).
Proof.
  unfold setup_ok, link_held, link_up, NotifyOnly.setup.
  destruct (bluetooth p), (requestDevice p), (connect p),
    (getPrimaryService p), (getCharacteristic p), (startNotifications p);
    simpl; try discriminate; eauto.
Qed.

Lemma fallback_failed (p : Platform) :
  setup_ok p = false →
  ∃ e, Fallback.setup p
       = if link_up p
         then Fallback.finally (Rejected e)
                (Fallback.set_connected (negb (linkLost p)) Fallback.idle)
         else Fallback.settle (Rejected e) Fallback.idle.
Proof.
  unfold setup_ok, link_up, Fallback.setup.
  destruct (bluetooth p), (requestDevice p), (connect p),
    (getPrimaryService p), (getCharacteristic p), (startNotifications p);
    simpl; try discriminate; eauto.
Qed.

Lemma phase_started (p : Platform) (events : list Fallback.Event) :
  setup_ok p = true → phase events (Fallback.connectToESP32 p events).
Proof.
  intros Hp. unfold Fallback.connectToESP32. rewrite (fallback_started p Hp).
  apply (phase_run events [] _). left. apply race_pending_start.
Qed.

(** In a closed session of the first revision the link is up exactly
    when it was and no later event took it down. *)
Lemma closed_connected (events : list NotifyOnly.Event)
    (s : NotifyOnly.Session) :
  closed s →
  NotifyOnly.connected (foldl NotifyOnly.dispatch s events) = true
  ↔ NotifyOnly.connected s = true
    ∧ NotifyOnly.GattServerDisconnected ∉ events.
Proof.
  revert s. induction events as [|ev events IH]; intros s Hs.
  - simpl. split; [intros H; split; [done|apply not_elem_of_nil] | by intros [H _]].
  - destruct (closed_inert s ev Hs) as (Hc & _). simpl.
    rewrite (IH _ Hc), not_elem_of_cons.
    destruct Hs as [Ht Hl].
    destruct ev as [value| |]; simpl; rewrite ?Ht, ?Hl.
    + split; [intros [? ?]|intros [? [? ?]]]; auto.
    + split; [intros [? ?]|intros [? [? ?]]]; auto.
    + split; [intros [H _]; discriminate | intros [_ [H _]]; done].
Qed.

(** A session of the second revision without timer, handler and pending
    await stays so. *)
Lemma fallback_dead_run (events : list Fallback.Event)
    (s : Fallback.Session) :
  Fallback.suspended s = Fallback.Completed →
  Fallback.timeout s = false → Fallback.listener s = false →
  let s' := foldl Fallback.dispatch s events in
  Fallback.timeout s' = false ∧ Fallback.listener s' = false.
Proof.
  revert s. induction events as [|ev events IH]; intros s Hsu Ht Hl; [done|].
  simpl. apply IH.
  - by destruct (completed_inert s ev Hsu) as (? & _).
  - destruct s; simpl in *; subst. by destruct ev as [value| |answer|].
  - destruct s; simpl in *; subst. by destruct ev as [value| |answer|].
Qed.

Lemma notifyOnly_failed_run (p : Platform) (events : list NotifyOnly.Event) :
  setup_ok p = false →
  let s := NotifyOnly.connectToESP32 p events in
  (∃ e, NotifyOnly.settlements s = [Rejected e])
  ∧ closed s ∧ NotifyOnly.disconnects s = 0
  ∧ (NotifyOnly.connected s = true
     ↔ link_held p = true ∧ NotifyOnly.GattServerDisconnected ∉ events).
Proof.
  intros Hp s. subst s. unfold NotifyOnly.connectToESP32.
  destruct (notifyOnly_failed p Hp) as [e ->].
  set (s0 := NotifyOnly.reject e _).
  assert (H0 : closed s0) by done.
  destruct (closed_inerts events s0 H0) as (G1 & G2 & G3 & _).
  rewrite G2, G3, (closed_connected events s0 H0).
  split; [by exists e|]. done.
Qed.

Lemma fallback_failed_run (p : Platform) (events : list Fallback.Event) :
  setup_ok p = false →
  let s := Fallback.connectToESP32 p events in
  (∃ e, Fallback.settlements s = [Rejected e])
  ∧ Fallback.timeout s = false ∧ Fallback.listener s = false
  ∧ Fallback.readValues s = 0
  ∧ Fallback.disconnects s = (if link_held p then 1 else 0)
  ∧ Fallback.connected s = false.
Proof.
  intros Hp s. subst s. unfold Fallback.connectToESP32.
  destruct (fallback_failed p Hp) as [e ->].
  set (s0 := if link_up p then _ else _).
  assert (H0 : Fallback.suspended s0 = Fallback.Completed
               ∧ Fallback.timeout s0 = false ∧ Fallback.listener s0 = false
               ∧ Fallback.settlements s0 = [Rejected e]
               ∧ Fallback.readValues s0 = 0
               ∧ Fallback.disconnects s0 = (if link_held p then 1 else 0)
               ∧ Fallback.connected s0 = false).
  { subst s0. unfold link_held. destruct (link_up p), (linkLost p); done. }
  destruct H0 as (Hsu & Ht & Hl & Hst & Hrv & Hd & Hc).
  destruct (completed_inerts events s0 Hsu) as (_ & G2 & G3 & G4 & G5).
  destruct (fallback_dead_run events s0 Hsu Ht Hl) as [D1 D2].
  rewrite G2, G3, G4, Hst, Hrv, Hd. split; [by exists e|].
  repeat split; auto.
Qed.

(** X8: when a call before the race fails (no Web Bluetooth, or any of
    [requestDevice], [connect], [getPrimaryService], [getCharacteristic],
    [startNotifications] is rejected), both revisions reject the call at
    once and, whatever events follow, no timer is armed, no handler is
    registered and nothing is read.  The first revision never
    disconnects then: the link is up afterwards exactly when [connect]
    had resolved, the link held until the rejection and no later event
    took it down.  The second revision disconnects once exactly when
    [connect] had resolved and the link held until the rejection, and
    the link is down afterwards. *)
Theorem setup_failure_rejects
    (p : Platform) (events1 : list NotifyOnly.Event)
    (events2 : list Fallback.Event) :
  setup_ok p = false →
  let s1 := NotifyOnly.connectToESP32 p events1 in
  let s2 := Fallback.connectToESP32 p events2 in
  ((∃ e, NotifyOnly.settlements s1 = [Rejected e])
   ∧ NotifyOnly.timeout s1 = false ∧ NotifyOnly.listener s1 = false
   ∧ NotifyOnly.disconnects s1 = 0
   ∧ (NotifyOnly.connected s1 = true
      ↔ link_held p = true ∧ NotifyOnly.GattServerDisconnected ∉ events1))
  ∧ ((∃ e, Fallback.settlements s2 = [Rejected e])
     ∧ Fallback.timeout s2 = false ∧ Fallback.listener s2 = false
     ∧ Fallback.readValues s2 = 0
     ∧ Fallback.disconnects s2 = (if link_held p then 1 else 0)
     ∧ Fallback.connected s2 = false).
Proof.
  intros Hp s1 s2. split.
  - destruct (notifyOnly_failed_run p events1 Hp) as (H1 & [H2 H3] & H4 & H5).
    auto.
  - apply (fallback_failed_run p events2 Hp).
Qed.

Lemma setup_failure_rejects_witness :
  NotifyOnly.disconnects
    (NotifyOnly.connectToESP32
       (mkPlatform true None None None (Some (new_Error "NotFoundError")) None
          false)
       [NotifyOnly.GattServerDisconnected])
  = 0
  ∧ Fallback.disconnects
      (Fallback.connectToESP32
         (mkPlatform true None None None (Some (new_Error "NotFoundError")) None
            true)
         [Fallback.TimeoutElapsed])
    = 0.
Proof.
  split.
  - destruct (setup_failure_rejects
                (mkPlatform true None None None
                   (Some (new_Error "NotFoundError")) None false)
                [NotifyOnly.GattServerDisconnected] [] eq_refl)
      as [(_ & _ & _ & H & _) _].
    exact H.
  - destruct (setup_failure_rejects
                (mkPlatform true None None None
                   (Some (new_Error "NotFoundError")) None true)
                [] [Fallback.TimeoutElapsed] eq_refl)
      as [_ (_ & _ & _ & _ & H & _)].
    exact H.
Defined.

(** ** The second revision: what every schedule guarantees *)

(** X9: under every platform and every schedule the second revision
    settles the returned promise at most once, calls [disconnect] at most
    once and [readValue] at most once, and a settled call never leaves
    the link up. *)
Theorem fallback_settles_at_most_once
    (p : Platform) (events : list Fallback.Event) :
  let s := Fallback.connectToESP32 p events in
  length (Fallback.settlements s) ≤ 1
  ∧ Fallback.disconnects s ≤ 1
  ∧ Fallback.readValues s ≤ 1
  ∧ (Fallback.settlements s ≠ [] → Fallback.connected s = false).
Proof.
  intros s. subst s. destruct (setup_ok p) eqn:Hp.
  - destruct (phase_started p events Hp)
      as [(_ & _ & _ & _ & _ & Hst & Hrv & Hd)
         |[[(_ & _ & _ & _ & Hd & Hrv & Hst) _]
          |(_ & Hc & Hd & Hrv & _ & r & Hst & _)]];
      rewrite ?Hst, ?Hrv, ?Hd; simpl; repeat split; auto; try lia; done.
  - destruct (fallback_failed_run p events Hp)
      as ([e Hst] & _ & _ & Hrv & Hd & Hc).
    rewrite Hst, Hrv, Hd. simpl.
    repeat split; auto. destruct (link_held p); lia.
Qed.

Lemma fallback_settles_at_most_once_witness :
  Fallback.connected
    (Fallback.connectToESP32 ready
       [Fallback.TimeoutElapsed;
        Fallback.ReadValueSettled (Return (DataView_of [42; 17]%Z))])
  = false.
Proof.
  destruct (fallback_settles_at_most_once ready
              [Fallback.TimeoutElapsed;
               Fallback.ReadValueSettled (Return (DataView_of [42; 17]%Z))])
    as (_ & _ & _ & H).
  apply H. discriminate.
Defined.

Lemma fallback_provenance
    (p : Platform) (events : list Fallback.Event) (r : Settlement) :
  setup_ok p = true →
  Fallback.promise (Fallback.connectToESP32 p events) = Some r →
  from_schedule events r
  ∧ ∀ e, r = Rejected e →
         Fallback.TimeoutElapsed ∈ events
         ∧ ∃ answer, Fallback.ReadValueSettled answer ∈ events
                     ∧ read_verdict answer = Rejected e.
Proof.
  intros Hp Hr.
  assert (Hfrom : from_schedule events r).
  { unfold Fallback.promise in Hr.
    destruct (phase_started p events Hp)
      as [(_ & _ & _ & _ & _ & Hst & _)
         |[[(_ & _ & _ & _ & _ & _ & Hst) _]
          |(_ & _ & _ & _ & _ & r' & Hst & Hfrom)]];
      rewrite Hst in Hr; simpl in Hr; try discriminate.
    by injection Hr as <-. }
  split; [done|]. intros e ->.
  destruct Hfrom as [(value & data & _ & _ & H)|(Ht & answer & Hin & H)];
    [discriminate|eauto].
Qed.

(** X10: when the setup succeeded, whatever settles the call of the
    second revision comes from the schedule: it is the decoded value of a
    notification that occurred, or, the timer having fired, the verdict
    on an answer of [readValue] that occurred.  In particular every
    rejection is the verdict on a read answer: a notification never
    makes the call fail, and the call never fails before the timer has
    fired. *)
Theorem fallback_settlement_provenance
    (p : Platform) (events : list Fallback.Event) (r : Settlement) :
  setup_ok p = true →
  Fallback.promise (Fallback.connectToESP32 p events) = Some r →
  from_schedule events r
  ∧ ∀ e, r = Rejected e →
         Fallback.TimeoutElapsed ∈ events
         ∧ ∃ answer, Fallback.ReadValueSettled answer ∈ events
                     ∧ read_verdict answer = Rejected e.
Proof. apply fallback_provenance. Qed.

Lemma fallback_settlement_provenance_witness :
  from_schedule
    [Fallback.TimeoutElapsed;
     Fallback.ReadValueSettled (Throw (new_Error "GATT operation failed"))]
    (Rejected (new_Error "GATT operation failed")).
Proof.
  apply (fallback_settlement_provenance ready
           [Fallback.TimeoutElapsed;
            Fallback.ReadValueSettled (Throw (new_Error "GATT operation failed"))]
           (Rejected (new_Error "GATT operation failed"))); reflexivity.
Defined.

(** X11: the second revision has no deadline of its own.  As long as the
    schedule holds no answer of [readValue] and no notification whose
    value decodes, the call is still pending, however many events
    occurred and even though the timer has fired. *)
Theorem fallback_pending_without_answer
    (p : Platform) (events : list Fallback.Event) :
  setup_ok p = true →
  Forall not_a_read events →
  (∀ value, Fallback.CharacteristicValueChanged (Some value) ∈ events →
            ∃ err, decode_fallback value = Throw err) →
  Fallback.promise (Fallback.connectToESP32 p events) = None.
Proof.
  intros Hp Hread Hnotif.
  destruct (Fallback.promise (Fallback.connectToESP32 p events)) as [r|] eqn:Hr;
    [|done].
  destruct (fallback_provenance p events r Hp Hr) as [Hfrom _].
  destruct Hfrom as [(value & data & Hin & Hdec & _)|(_ & answer & Hin & _)].
  - destruct (Hnotif value Hin) as [err Herr]. congruence.
  - rewrite Forall_forall in Hread. destruct (Hread _ Hin).
Qed.

Lemma fallback_pending_without_answer_witness :
  Fallback.promise
    (Fallback.connectToESP32 ready
       [Fallback.CharacteristicValueChanged (Some (DataView_of [42]%Z));
        Fallback.TimeoutElapsed; Fallback.TimeoutElapsed;
        Fallback.GattServerDisconnected])
  = None.
Proof.
  apply fallback_pending_without_answer.
  - reflexivity.
  - repeat constructor.
  - intros value Hin.
    apply elem_of_cons in Hin as [Hin|Hin].
    + injection Hin as ->. eexists. reflexivity.
    + exfalso. repeat (apply elem_of_cons in Hin as [Hin|Hin]; [discriminate|]).
      by apply elem_of_nil in Hin.
Defined.

(** X12: before the timer fires the second revision never reads and never
    fails: in a schedule without [TimeoutElapsed], [readValue] is not
    called and the call is pending or fulfilled. *)
Theorem fallback_quiet_before_timer
    (p : Platform) (events : list Fallback.Event) :
  setup_ok p = true →
  Fallback.TimeoutElapsed ∉ events →
  let s := Fallback.connectToESP32 p events in
  Fallback.readValues s = 0 ∧ ∀ e, Fallback.promise s ≠ Some (Rejected e).
Proof.
  intros Hp Ht s. split.
  - subst s.
    destruct (phase_started p events Hp)
      as [(_ & _ & _ & _ & _ & _ & Hrv & _)
         |[[_ Hin]|(_ & _ & _ & Hrv & Htimer & _)]]; [done|done|].
    destruct (Fallback.readValues _) as [|[|n]]; [done| |lia].
    by destruct Ht; apply Htimer.
  - intros e Hr.
    destruct (fallback_provenance p events _ Hp Hr) as [_ H].
    destruct (H e eq_refl) as [Hin _]. done.
Qed.

Lemma fallback_quiet_before_timer_witness :
  Fallback.readValues
    (Fallback.connectToESP32 ready
       [Fallback.CharacteristicValueChanged (Some (DataView_of [42]%Z));
        Fallback.CharacteristicValueChanged (Some (DataView_of [42; 17]%Z))])
  = 0.
Proof.
  apply (fallback_quiet_before_timer ready
           [Fallback.CharacteristicValueChanged (Some (DataView_of [42]%Z));
            Fallback.CharacteristicValueChanged (Some (DataView_of [42; 17]%Z))]).
  - reflexivity.
  - intros Hin.
    repeat (apply elem_of_cons in Hin as [Hin|Hin]; [discriminate|]).
    by apply elem_of_nil in Hin.
Defined.

Section FallbackDeaf.
Import Fallback.

(** With the handler gone and the race pending, only the timer moves the
    call. *)
Lemma deaf_step (s : Session) (ev : Event) :
  race_pending s → listener s = false → ev ≠ TimeoutElapsed →
  let s' := dispatch s ev in
  race_pending s' ∧ listener s' = false ∧ uncaught s' = uncaught s.
Proof.
  intros (Hsu & Ht & Htp & Hn & Hr & Hst & Hrv & Hd) Hl Hev.
  destruct s; simpl in *; subst.
  destruct ev as [[value|]| |answer|]; done.
Qed.

Lemma deaf_run (post : list Event) (s : Session) :
  race_pending s → listener s = false → TimeoutElapsed ∉ post →
  let s' := foldl dispatch s post in
  race_pending s' ∧ listener s' = false ∧ uncaught s' = uncaught s.
Proof.
  revert s. induction post as [|ev post IH]; intros s Hp Hl Hpost; [done|].
  apply not_elem_of_cons in Hpost as [Hev Hpost].
  destruct (deaf_step s ev Hp Hl) as (H1 & H2 & H3); [done|].
  destruct (IH _ H1 H2 Hpost) as (G1 & G2 & G3).
  simpl. repeat split; try apply G1; [done|congruence].
Qed.

Lemma racing_uncaught (pre : list Event) (s : Session) :
  racing s → Forall quiet2 pre →
  uncaught (foldl dispatch s pre) = uncaught s.
Proof.
  revert s. induction pre as [|ev pre IH]; intros s Hs Hq; [done|].
  inversion Hq as [|? ? Hev Hpre]; subst. simpl.
  rewrite IH; [|by apply racing_quiet|done].
  destruct Hs as (Ht & Hl & Hn & Htp & Hr & Hsu & Hd & Hrv & Hst).
  destruct s; simpl in *; subst.
  destruct ev as [[value|]| |answer|]; try contradiction; done.
Qed.

Lemma racing_malformed (s : Session) (value : DataView) (err : JsError) :
  racing s → parse2Bytes value = Throw err →
  let s' := dispatch s (CharacteristicValueChanged (Some value)) in
  race_pending s' ∧ listener s' = false ∧ uncaught s' = (uncaught s ++ [err])%list.
Proof.
  intros (Ht & Hl & Hn & Htp & Hr & Hsu & Hd & Hrv & Hst) Hp.
  destruct s; simpl in *; subst. unfold handler. rewrite Hp. done.
Qed.

(** X13: in the second revision one malformed notification ends the
    notification path.  After a notification shorter than two bytes the
    handler is gone: until the timer fires, no later notification, valid
    or not, settles the call, reports a further error, reads or
    disconnects. *)
Theorem fallback_malformed_silences_notifications
    (pre post : list Event) (value : DataView) :
  Forall quiet2 pre → byteLength value < 2 → TimeoutElapsed ∉ post →
  let s := connectToESP32 ready
             (pre ++ CharacteristicValueChanged (Some value) :: post) in
  promise s = None ∧ listener s = false
  ∧ uncaught s
    = [new_Error ("Expected 2 bytes (moisture, ec) but got "
                    ++ show (byteLength value))]
  ∧ readValues s = 0 ∧ disconnects s = 0.
Proof.
  intros Hpre Hlen Hpost s. subst s.
  rewrite fallback_ready, foldl_app. cbn [foldl].
  pose proof (racing_quiets pre _ (racing_start true) Hpre) as Hr.
  pose proof (racing_uncaught pre _ (racing_start true) Hpre) as Hu.
  destruct (racing_malformed _ value _ Hr (parse2Bytes_short value Hlen))
    as (H1 & H2 & H3).
  destruct (deaf_run post _ H1 H2 Hpost) as (G1 & G2 & G3).
  destruct G1 as (_ & _ & _ & _ & _ & Hst & Hrv & Hd).
  unfold promise. rewrite Hst, G3, H3, Hu. done.
Qed.

Lemma fallback_malformed_silences_notifications_witness :
  promise
    (connectToESP32 ready
       ([CharacteristicValueChanged None]
          ++ CharacteristicValueChanged (Some (DataView_of [42]%Z))
          :: [CharacteristicValueChanged (Some (DataView_of [42; 17]%Z))]))
  = None.
Proof.
  apply (fallback_malformed_silences_notifications
           [CharacteristicValueChanged None]
           [CharacteristicValueChanged (Some (DataView_of [42; 17]%Z))]
           (DataView_of [42]%Z)).
  - repeat constructor.
  - simpl. lia.
  - intros Hin.
    repeat (apply elem_of_cons in Hin as [Hin|Hin]; [discriminate|]).
    by apply elem_of_nil in Hin.
Defined.

(** The link stays up through quiet events exactly when none of them is
    the loss of the link. *)
Lemma racing_connected (pre : list Event) (s : Session) :
  racing s → Forall quiet2 pre →
  connected (foldl dispatch s pre) = true
  ↔ connected s = true ∧ GattServerDisconnected ∉ pre.
Proof.
  revert s. induction pre as [|ev pre IH]; intros s Hs Hq.
  - simpl. split; [intros H; split; [done|apply not_elem_of_nil] | by intros [H _]].
  - inversion Hq as [|? ? Hev Hpre]; subst. simpl.
    rewrite (IH _ (racing_quiet s ev Hs Hev) Hpre), not_elem_of_cons.
    assert (Hc : connected (dispatch s ev) = true
                 ↔ connected s = true ∧ ev ≠ GattServerDisconnected).
    { destruct Hs as (Ht & Hl & Hn & Htp & Hr & Hsu & Hd & Hrv & Hst).
      destruct s; simpl in *; subst.
      destruct ev as [[value|]| |answer|]; try contradiction; simpl.
      - split; [auto|by intros [? _]].
      - split; [auto|by intros [? _]].
      - split; [discriminate|by intros [_ ?]]. }
    rewrite Hc. split; [intros [[? ?] ?]|intros [? [? ?]]]; auto.
Qed.

Lemma reading_connected (mid : list Event) (s : Session) :
  reading s → Forall not_a_read mid →
  connected (foldl dispatch s mid) = true
  ↔ connected s = true ∧ GattServerDisconnected ∉ mid.
Proof.
  revert s. induction mid as [|ev mid IH]; intros s Hs Hq.
  - simpl. split; [intros H; split; [done|apply not_elem_of_nil] | by intros [H _]].
  - inversion Hq as [|? ? Hev Hmid]; subst. simpl.
    rewrite (IH _ (reading_other s ev Hs Hev) Hmid), not_elem_of_cons.
    assert (Hc : connected (dispatch s ev) = true
                 ↔ connected s = true ∧ ev ≠ GattServerDisconnected).
    { destruct Hs as (Ht & Htp & Hr & Hsu & Hd & Hrv & Hst).
      destruct s; simpl in *; subst.
      destruct ev as [[value|]| |answer|]; try contradiction; simpl.
      - destruct listener0; simpl; [|split; [auto|by intros [? _]]].
        unfold handler.
        destruct (parse2Bytes value) as [[m e]|err]; simpl;
          [destruct notifPromise0; simpl|];
          (split; [auto|by intros [? _]]).
      - destruct listener0; simpl; split; auto; by intros [? _].
      - split; [auto|by intros [? _]].
      - split; [discriminate|by intros [_ ?]]. }
    rewrite Hc. split; [intros [[? ?] ?]|intros [? [? ?]]]; auto.
Qed.

(** The timer on a pending race starts the read, whether the handler is
    still there or not. *)
Lemma race_pending_timeout (s : Session) :
  race_pending s →
  let s' := dispatch s TimeoutElapsed in
  reading s' ∧ listener s' = listener s ∧ connected s' = connected s.
Proof.
  intros (Hsu & Ht & Htp & Hn & Hr & Hst & Hrv & Hd).
  destruct s; simpl in *; subst. done.
Qed.

(** One event on a pending race leaves it pending or decides it. *)
Lemma pending_or_decided (s : Session) (ev : Event) :
  race_pending s →
  race_pending (dispatch s ev) ∨ ∃ r, race (dispatch s ev) = Some r.
Proof.
  intros (Hsu & Ht & Htp & Hn & Hr & Hst & Hrv & Hd).
  destruct s; simpl in *; subst.
  destruct ev as [[value|]| |answer|]; simpl.
  - destruct listener0; [|by left]. unfold handler.
    destruct (parse2Bytes value) as [[m e]|err]; simpl; [|by left].
    right. unfold resolve_notif, settle_race, after_race, finally. simpl.
    destruct connected0; by eexists.
  - left. by destruct listener0.
  - right. by eexists.
  - by left.
  - by left.
Qed.

(** While the race stays pending, the link is up exactly when it was and
    no event took it down. *)
Lemma pending_connected (s : Session) (ev : Event) :
  race_pending s → race_pending (dispatch s ev) →
  connected (dispatch s ev) = true
  ↔ connected s = true ∧ ev ≠ GattServerDisconnected.
Proof.
  intros (Hsu & Ht & Htp & Hn & Hr & Hst & Hrv & Hd) Hp'.
  destruct Hp' as (Hsu' & _).
  destruct s; simpl in *; subst.
  destruct ev as [[value|]| |answer|]; simpl in *.
  - destruct listener0; simpl in *; [|split; [auto|by intros [? _]]].
    unfold handler in *.
    destruct (parse2Bytes value) as [[m e]|err]; simpl in *;
      [|split; [auto|by intros [? _]]].
    unfold resolve_notif, settle_race, after_race, finally in Hsu'.
    simpl in Hsu'. destruct connected0; discriminate.
  - destruct listener0; simpl; split; auto; by intros [? _].
  - discriminate.
  - split; [auto|by intros [? _]].
  - split; [discriminate|by intros [_ ?]].
Qed.

(** A schedule that leaves the race pending kept it pending all along. *)
Lemma pending_run (pre : list Event) (s : Session) :
  race_pending s → race (foldl dispatch s pre) = None →
  race_pending (foldl dispatch s pre)
  ∧ (connected (foldl dispatch s pre) = true
     ↔ connected s = true ∧ GattServerDisconnected ∉ pre).
Proof.
  revert s. induction pre as [|ev pre IH]; intros s Hp Hr.
  - simpl. split; [done|].
    split; [intros H; split; [done|apply not_elem_of_nil] | by intros [H _]].
  - simpl in *. destruct (pending_or_decided s ev Hp) as [Hp'|[r Hr']].
    + destruct (IH _ Hp' Hr) as [G1 G2]. split; [done|].
      rewrite G2, (pending_connected s ev Hp Hp'), not_elem_of_cons.
      split; [intros [[? ?] ?]|intros [? [? ?]]]; auto.
    + rewrite (race_stables pre _ r Hr') in Hr. discriminate.
Qed.

Lemma pending_after (p : Platform) (pre : list Event) :
  setup_ok p = true → race (connectToESP32 p pre) = None →
  race_pending (connectToESP32 p pre)
  ∧ (connected (connectToESP32 p pre) = true
     ↔ linkLost p = false ∧ GattServerDisconnected ∉ pre).
Proof.
  intros Hp Hr. unfold connectToESP32 in *.
  rewrite (fallback_started p Hp) in *.
  destruct (pending_run pre _ (race_pending_start _) Hr) as [H1 H2].
  split; [done|]. rewrite H2. simpl.
  destruct (linkLost p); simpl; split; intros [? ?]; auto; done.
Qed.

(** X14: the teardown of the second revision disconnects exactly when
    the link is still up.  When a notification that decodes wins,
    [disconnect] is called once iff the link was not lost before it; when
    the timer wins, that is when it fires on a pending race, whatever
    came before, and [readValue] answers, [disconnect] is called once
    iff the link was not lost before that answer.  Either way the link is
    down afterwards. *)
Theorem fallback_disconnects_iff_link_up :
  (∀ pre value data post,
     Forall quiet2 pre → decode_fallback value = Return data →
     let s := connectToESP32 ready
                (pre ++ CharacteristicValueChanged (Some value) :: post) in
     (disconnects s = 1 ↔ GattServerDisconnected ∉ pre)
     ∧ disconnects s ≤ 1 ∧ connected s = false)
  ∧ (∀ pre mid answer post,
       race (connectToESP32 ready pre) = None → Forall not_a_read mid →
       let s := connectToESP32 ready
                  (pre ++ TimeoutElapsed
                       :: mid ++ ReadValueSettled answer :: post) in
       (disconnects s = 1 ↔ GattServerDisconnected ∉ (pre ++ mid)%list)
       ∧ disconnects s ≤ 1 ∧ connected s = false).
Proof.
  split.
  - intros pre value data post Hpre Hdec s. subst s.
    rewrite fallback_ready, foldl_app. cbn [foldl].
    pose proof (racing_quiets pre _ (racing_start true) Hpre) as Hr.
    pose proof (racing_connected pre _ (racing_start true) Hpre) as Hc.
    destruct (racing_notification _ value data Hr Hdec)
      as (_ & H2 & _ & _ & _ & _ & H7 & H8).
    destruct (completed_inerts post _ H2) as (_ & _ & G3 & _ & G5).
    rewrite G3, H8. split; [|split; [|auto]].
    + destruct (connected (foldl dispatch _ pre)).
      * split; [intros _; by apply Hc | done].
      * split; [discriminate | intros Hn].
        assert (false = true) by (apply Hc; auto). done.
    + destruct (connected (foldl dispatch _ pre)); lia.
  - intros pre mid answer post Hpre Hmid s. subst s.
    destruct (pending_after ready pre eq_refl Hpre) as [Hr Hc].
    unfold connectToESP32 in *. rewrite foldl_app. cbn [foldl].
    rewrite foldl_app. cbn [foldl].
    destruct (race_pending_timeout _ Hr) as (Hrd & _ & Hsame).
    pose proof (reading_others mid _ Hrd Hmid) as Hrd'.
    pose proof (reading_connected mid _ Hrd Hmid) as Hc'.
    rewrite Hsame, Hc in Hc'.
    destruct (reading_settled _ answer Hrd') as (H1 & _ & _ & _ & H5 & H6).
    destruct (completed_inerts post _ H1) as (_ & _ & G3 & _ & G5).
    rewrite G3, H6, not_elem_of_app. split; [|split; [|auto]].
    + destruct (connected (foldl dispatch _ mid)).
      * split; [intros _|done]. destruct Hc' as [Hc' _].
        destruct (Hc' eq_refl) as [[_ ?] ?]. auto.
      * split; [discriminate | intros [Hn1 Hn2]].
        assert (false = true) by (apply Hc'; auto). done.
    + destruct (connected (foldl dispatch _ mid)); lia.
Qed.

Lemma fallback_disconnects_iff_link_up_witness :
  disconnects
    (connectToESP32 ready
       ([CharacteristicValueChanged (Some (DataView_of [42]%Z));
         GattServerDisconnected]
          ++ TimeoutElapsed
          :: [] ++ ReadValueSettled (Throw (new_Error "GATT operation failed"))
          :: []))
  ≤ 1.
Proof.
  destruct fallback_disconnects_iff_link_up as [_ H].
  apply (H [CharacteristicValueChanged (Some (DataView_of [42]%Z));
            GattServerDisconnected] []
           (Throw (new_Error "GATT operation failed")) []);
    [reflexivity | constructor].
Defined.

End FallbackDeaf.

(** ** The race of the second revision under every schedule *)

Section FallbackClosedForm.
Import Fallback.

Local Ltac open_all :=
  repeat progress
    (unfold handler, resolve_notif, resolve_timeout, settle_race,
       after_race, after_readValue, finally in *;
     simpl in * ).

Local Ltac by_cases :=
  open_all; repeat (case_match; simplify_eq; open_all); try done.

(** The callback of the timer never touches the handler. *)
Lemma timer_keeps_listener (s : Session) :
  listener (dispatch s TimeoutElapsed) = listener s.
Proof. destruct s. by_cases. Qed.

(** The handler never touches the timer. *)
Lemma handler_keeps_timer (s : Session) (value : option DataView) :
  timeout (dispatch s (CharacteristicValueChanged value)) = timeout s.
Proof. destruct s. by_cases. Qed.

(** A notification with a value runs the handler, if there is one, and
    the handler then unregisters itself. *)
Lemma handler_runs (s : Session) (value : DataView) :
  listener s = true →
  listener (dispatch s (CharacteristicValueChanged (Some value))) = false.
Proof. intros Hl. destruct s; simpl in *; subst. by_cases. Qed.

Lemma timer_armed_step (s : Session) (ev : Event) :
  ev ≠ TimeoutElapsed → timeout (dispatch s ev) = timeout s.
Proof. intros Hev. destruct s, ev; by_cases. Qed.

Lemma listener_kept_step (s : Session) (ev : Event) :
  (∀ value, ev ≠ CharacteristicValueChanged (Some value)) →
  listener (dispatch s ev) = listener s.
Proof.
  intros Hev. destruct s, ev as [[value|]| |answer|]; by_cases.
  all: by destruct (Hev value).
Qed.

Lemma timer_armed_run (events : list Event) (s : Session) :
  TimeoutElapsed ∉ events → timeout (foldl dispatch s events) = timeout s.
Proof.
  revert s. induction events as [|ev events IH]; intros s Hev; [done|].
  apply not_elem_of_cons in Hev as [Hne Hev]. simpl.
  rewrite (IH _ Hev). apply timer_armed_step. congruence.
Qed.

Lemma listener_kept_run (events : list Event) (s : Session) :
  (∀ value, CharacteristicValueChanged (Some value) ∉ events) →
  listener (foldl dispatch s events) = listener s.
Proof.
  revert s. induction events as [|ev events IH]; intros s Hev; [done|].
  simpl. rewrite IH.
  - apply listener_kept_step. intros value ->.
    apply (Hev value), elem_of_cons. auto.
  - intros value Hin. apply (Hev value), elem_of_cons. auto.
Qed.

(** With the handler gone, a pending race is the timer's, if it fires. *)
Lemma deaf_closed_form (rest : list Event) (s : Session) :
  race_pending s → listener s = false →
  let s' := foldl dispatch s rest in
  race s' = (if timer_in rest then Some TimedOut else None)
  ∧ length (settlements s') ≤ 1 ∧ disconnects s' ≤ 1
  ∧ readValues s' = (if timer_in rest then 1 else 0).
Proof.
  revert s. induction rest as [|ev rest IH]; intros s Hp Hl.
  - destruct Hp as (_ & _ & _ & _ & Hr & Hst & Hrv & Hd). simpl.
    rewrite Hr, Hst, Hrv, Hd. simpl. repeat split; lia.
  - destruct ev as [value| |answer|].
    + destruct (deaf_step s (CharacteristicValueChanged value) Hp Hl)
        as (H1 & H2 & _); [done|]. apply (IH _ H1 H2).
    + destruct (race_pending_timeout s Hp) as (Hrd & _).
      apply (reading_run rest _ Hrd).
    + destruct (deaf_step s (ReadValueSettled answer) Hp Hl)
        as (H1 & H2 & _); [done|]. apply (IH _ H1 H2).
    + destruct (deaf_step s GattServerDisconnected Hp Hl)
        as (H1 & H2 & _); [done|]. apply (IH _ H1 H2).
Qed.

(** [Promise.race] in closed form, with the accounts of the call. *)
Lemma race_closed_form (events : list Event) (s : Session) :
  racing s →
  let s' := foldl dispatch s events in
  race s' = race_of events
  ∧ length (settlements s') ≤ 1 ∧ disconnects s' ≤ 1
  ∧ readValues s' = match race s' with Some TimedOut => 1 | _ => 0 end.
Proof.
  revert s. induction events as [|ev events IH]; intros s Hs.
  - destruct Hs as (_ & _ & _ & _ & Hr & _ & Hd & Hrv & Hst). simpl.
    rewrite Hr, Hst, Hrv, Hd. simpl. repeat split; lia.
  - destruct ev as [[value|]| |answer|].
    + cbn [foldl race_of].
      destruct (decode_fallback value) as [data|err] eqn:Hdec.
      * destruct (racing_notification s value data Hs Hdec)
          as (H1 & H2 & H3 & H4 & _ & _ & _ & H8).
        destruct (completed_inerts events _ H2) as (_ & G2 & G3 & G4 & _).
        cbv zeta. rewrite (race_stables events _ _ H1), G2, G3, G4, H3, H4, H8.
        simpl. destruct (connected s); repeat split; lia.
      * assert (Hp : ∃ err', parse2Bytes value = Throw err').
        { unfold decode_fallback in Hdec.
          destruct (parse2Bytes value) as [[m e]|err']; [discriminate|eauto]. }
        destruct Hp as [err' Hp].
        destruct (racing_malformed s value err' Hs Hp) as (H1 & H2 & _).
        destruct (deaf_closed_form events _ H1 H2) as (G1 & G2 & G3 & G4).
        cbv zeta. rewrite G1, G4.
        destruct (timer_in events); repeat split; done.
    + apply IH. by apply racing_quiet.
    + destruct (racing_timeout s Hs) as (Hrd & _).
      destruct (reading_run events _ Hrd) as (G1 & G2 & G3 & G4).
      cbn [foldl race_of]. cbv zeta. rewrite G1, G4. done.
    + apply IH. by apply racing_quiet.
    + apply IH. by apply racing_quiet.
Qed.

End FallbackClosedForm.

(** Claim C1, amended.  The acquisition is settled at most once, by the
    first event that can settle it, and the event that comes too late
    changes no result.  First revision: the first event that is the
    timer or a notification with a value settles the returned promise,
    [cleanup] cancels the timer and unregisters the handler, and every
    later event leaves settlements, disconnects and console as they are.
    Second revision, under every schedule: [Promise.race] holds what
    [race_of] says (the first event that is the timer or a notification
    with a value decides; if that notification does not decode, the
    handler is gone and the race is left to the timer), and keeps it for
    good; the returned promise is settled at most once, [disconnect] is
    called at most once, and [readValue] is called once if the timer won
    and never otherwise.  The second revision does not cancel the loser:
    the timer's callback leaves the handler registered, so after the
    timer has won a later notification with a value still runs the
    handler, and the handler leaves the timer armed, so the timer is
    armed until it fires. *)
Theorem race_settles_once :
  (∀ pre ev post r,
     Forall quiet1 pre → verdict1 ev = Some r →
     let s := NotifyOnly.connectToESP32 ready (pre ++ ev :: post) in
     let s0 := NotifyOnly.connectToESP32 ready (pre ++ [ev]) in
     NotifyOnly.settlements s = [r] ∧ closed s
     ∧ NotifyOnly.disconnects s ≤ 1
     ∧ NotifyOnly.disconnects s = NotifyOnly.disconnects s0
     ∧ NotifyOnly.console s = NotifyOnly.console s0)
  ∧ (∀ events,
       let s := Fallback.connectToESP32 ready events in
       Fallback.race s = race_of events
       ∧ length (Fallback.settlements s) ≤ 1
       ∧ Fallback.disconnects s ≤ 1
       ∧ Fallback.readValues s
         = match Fallback.race s with
           | Some Fallback.TimedOut => 1
           | _ => 0
           end
       ∧ (Fallback.TimeoutElapsed ∉ events → Fallback.timeout s = true)
       ∧ ((∀ value,
             Fallback.CharacteristicValueChanged (Some value) ∉ events) →
          Fallback.listener s = true))
  ∧ (∀ s ev r,
       Fallback.race s = Some r →
       Fallback.race (Fallback.dispatch s ev) = Some r)
  ∧ (∀ s,
       Fallback.listener (Fallback.dispatch s Fallback.TimeoutElapsed)
       = Fallback.listener s)
  ∧ (∀ s value,
       Fallback.timeout
         (Fallback.dispatch s (Fallback.CharacteristicValueChanged value))
       = Fallback.timeout s)
  ∧ (∀ s value,
       Fallback.listener s = true →
       Fallback.listener
         (Fallback.dispatch s
            (Fallback.CharacteristicValueChanged (Some value)))
       = false).
Proof.
  split; [|split; [|split; [|split; [|split]]]].
  - intros pre ev post r Hpre Hev s s0. subst s s0.
    rewrite !notifyOnly_ready, !foldl_app. simpl.
    pose proof (waiting_quiets pre _ (waiting_executor true) Hpre) as Hw.
    destruct (waiting_decisive _ ev r Hw Hev) as (H1 & H2 & _ & H4).
    destruct (closed_inerts post _ H2) as (G1 & G2 & G3 & G4 & _).
    rewrite G2, G3, G4, H1, H4. repeat split; try apply G1.
    destruct (NotifyOnly.connected _); lia.
  - intros events s. subst s. rewrite fallback_ready.
    destruct (race_closed_form events _ (racing_start true))
      as (H1 & H2 & H3 & H4).
    split; [done|]. split; [done|]. split; [done|]. split; [done|].
    split.
    + intros Hev. by rewrite (timer_armed_run events _ Hev).
    + intros Hev. by rewrite (listener_kept_run events _ Hev).
  - intros s ev r. apply race_stable.
  - apply timer_keeps_listener.
  - apply handler_keeps_timer.
  - apply handler_runs.
Qed.

Lemma race_settles_once_witness :
  NotifyOnly.settlements
    (NotifyOnly.connectToESP32 ready
       ([NotifyOnly.CharacteristicValueChanged None]
          ++ NotifyOnly.TimeoutElapsed
          :: [NotifyOnly.CharacteristicValueChanged
                (Some (DataView_of [42; 17]%Z))]))
  = [Rejected (new_Error "No data received from ESP32")]
  ∧ Fallback.timeout
      (Fallback.connectToESP32 ready
         [Fallback.CharacteristicValueChanged (Some (DataView_of [42; 17]%Z))])
    = true
  ∧ Fallback.listener
      (Fallback.dispatch
         (Fallback.connectToESP32 ready [Fallback.TimeoutElapsed])
         (Fallback.CharacteristicValueChanged (Some (DataView_of [42; 17]%Z))))
    = false.
Proof.
  destruct race_settles_once as (H1 & H2 & _ & _ & _ & H6).
  split; [|split].
  - apply (H1 [NotifyOnly.CharacteristicValueChanged None]
              NotifyOnly.TimeoutElapsed).
    + repeat constructor.
    + reflexivity.
  - apply (H2 [Fallback.CharacteristicValueChanged
                 (Some (DataView_of [42; 17]%Z))]).
    intros Hin. apply list_elem_of_singleton in Hin. discriminate Hin.
  - apply H6. reflexivity.
Defined.

(** Claim C7, amended: when the timer wins the race, that is when it
    fires while the race is pending, whatever came before, and the
    pull-style read that follows is rejected with [e], the call is
    rejected with [e] itself, unwrapped, after one read and with the link
    taken down. *)
Theorem fallback_read_failure
    (p : Platform) (pre mid post : list Fallback.Event) (e : JsError) :
  setup_ok p = true →
  Fallback.race (Fallback.connectToESP32 p pre) = None →
  Forall not_a_read mid →
  let s := Fallback.connectToESP32 p
             (pre ++ Fallback.TimeoutElapsed
                  :: mid ++ Fallback.ReadValueSettled (Throw e) :: post) in
  Fallback.promise s = Some (Rejected e)
  ∧ Fallback.settlements s = [Rejected e]
  ∧ Fallback.readValues s = 1
  ∧ Fallback.connected s = false
  ∧ ¬ fails_with_cause s e.
Proof.
  intros Hp Hpre Hmid s.
  assert (Hs : Fallback.settlements s = [Rejected e]
               ∧ Fallback.readValues s = 1 ∧ Fallback.connected s = false).
  { subst s. destruct (pending_after p pre Hp Hpre) as [Hr _].
    unfold Fallback.connectToESP32 in *. rewrite foldl_app. cbn [foldl].
    rewrite foldl_app. cbn [foldl].
    destruct (race_pending_timeout _ Hr) as (Hrd & _ & _).
    pose proof (reading_others mid _ Hrd Hmid) as Hrd'.
    destruct (reading_settled _ (Throw e) Hrd') as (H1 & H2 & H3 & _ & H5 & _).
    destruct (completed_inerts post _ H1) as (_ & G2 & _ & G4 & G5).
    rewrite G2, G4, H2, H3. auto. }
  destruct Hs as (Hst & Hrv & Hc).
  assert (Hpr : Fallback.promise s = Some (Rejected e)).
  { unfold Fallback.promise. by rewrite Hst. }
  repeat split; try done.
  intros (err & Hp' & Hcause). rewrite Hpr in Hp'. injection Hp' as <-.
  by apply (cause_of_irreflexive e).
Qed.

Lemma fallback_read_failure_witness :
  Fallback.promise
    (Fallback.connectToESP32 ready
       ([Fallback.CharacteristicValueChanged (Some (DataView_of [42]%Z))]
          ++ Fallback.TimeoutElapsed
          :: [Fallback.GattServerDisconnected]
          ++ Fallback.ReadValueSettled (Throw (new_Error "GATT operation failed"))
          :: []))
  = Some (Rejected (new_Error "GATT operation failed")).
Proof.
  apply (fallback_read_failure ready
           [Fallback.CharacteristicValueChanged (Some (DataView_of [42]%Z))]
           [Fallback.GattServerDisconnected] []
           (new_Error "GATT operation failed")).
  - reflexivity.
  - reflexivity.
  - repeat constructor.
Defined.

(** ** The first revision under every schedule *)

Section NotifyOnlySchedules.
Import NotifyOnly.

Lemma verdict1_none_quiet (ev : Event) : verdict1 ev = None → quiet1 ev.
Proof. by destruct ev as [[value|]| |]. Qed.

Lemma waiting_closed_form (events : list Event) (s : Session) :
  waiting s →
  settlements (foldl dispatch s events)
  = option_list (head (omap verdict1 events)).
Proof.
  revert s. induction events as [|ev events IH]; intros s Hs.
  - simpl. by destruct Hs as (_ & _ & _ & -> & _).
  - simpl. destruct (verdict1 ev) as [r|] eqn:Hv.
    + destruct (waiting_decisive s ev r Hs Hv) as (H1 & H2 & _).
      destruct (closed_inerts events _ H2) as (_ & G2 & _).
      by rewrite G2, H1.
    + apply IH. apply waiting_quiet; [done|]. by apply verdict1_none_quiet.
Qed.

(** After any schedule the session still waits, untouched, or it is
    closed with one settlement. *)
Lemma waiting_or_closed (events : list Event) (s : Session) :
  waiting s →
  let s' := foldl dispatch s events in
  waiting s'
  ∨ (closed s' ∧ length (settlements s') = 1 ∧ disconnects s' ≤ 1
     ∧ connected s' = false).
Proof.
  revert s. induction events as [|ev events IH]; intros s Hs; [by left|].
  simpl. destruct (verdict1 ev) as [r|] eqn:Hv.
  - right. destruct (waiting_decisive s ev r Hs Hv) as (H1 & H2 & H3 & H4).
    destruct (closed_inerts events _ H2) as (G1 & G2 & G3 & _ & G5).
    rewrite G2, G3, H1, H4.
    repeat split; try apply G1; auto. destruct (connected s); lia.
  - apply IH. apply waiting_quiet; [done|]. by apply verdict1_none_quiet.
Qed.

Lemma notifyOnly_closed_form
    (p : Platform) (events : list Event) :
  setup_ok p = true →
  let s := connectToESP32 p events in
  promise s = head (omap verdict1 events)
  ∧ settlements s = option_list (promise s)
  ∧ (TimeoutElapsed ∈ events → is_Some (promise s)).
Proof.
  intros Hp s. subst s.
  assert (Hs : settlements (connectToESP32 p events)
               = option_list (head (omap verdict1 events))).
  { unfold connectToESP32. rewrite (notifyOnly_started p Hp).
    apply waiting_closed_form, waiting_executor. }
  assert (Hpr : promise (connectToESP32 p events)
                = head (omap verdict1 events)).
  { unfold promise. rewrite Hs. by destruct (head _). }
  split; [done|]. split; [by rewrite Hpr|].
  intros Hin. rewrite Hpr.
  assert (Hr : Rejected (new_Error "No data received from ESP32")
               ∈ omap verdict1 events).
  { apply list_elem_of_omap. by exists TimeoutElapsed. }
  destruct (omap verdict1 events) as [|r l]; [|by eexists].
  by apply elem_of_nil in Hr.
Qed.

(** X15: the first revision in closed form.  When the setup succeeded,
    after any schedule the returned promise holds the verdict of the
    first event that is the timer or a notification with a value, and is
    pending if there is none; so the call is settled as soon as the timer
    has fired. *)
Theorem notifyOnly_first_verdict_settles
    (p : Platform) (events : list Event) :
  setup_ok p = true →
  let s := connectToESP32 p events in
  promise s = head (omap verdict1 events)
  ∧ settlements s = option_list (promise s)
  ∧ (TimeoutElapsed ∈ events → is_Some (promise s)).
Proof. apply notifyOnly_closed_form. Qed.

Lemma notifyOnly_first_verdict_settles_witness :
  promise
    (connectToESP32 ready
       [CharacteristicValueChanged None; TimeoutElapsed;
        CharacteristicValueChanged (Some (DataView_of [42; 17]%Z))])
  = Some (Rejected (new_Error "No data received from ESP32")).
Proof.
  apply (notifyOnly_first_verdict_settles ready
           [CharacteristicValueChanged None; TimeoutElapsed;
            CharacteristicValueChanged (Some (DataView_of [42; 17]%Z))]).
  reflexivity.
Defined.

(** X16: under every platform and every schedule the first revision
    calls [resolve] or [reject] at most once and [disconnect] at most
    once, and once the call is settled no timer is armed and no handler
    is registered. *)
Theorem notifyOnly_settles_at_most_once
    (p : Platform) (events : list Event) :
  let s := connectToESP32 p events in
  length (settlements s) ≤ 1
  ∧ disconnects s ≤ 1
  ∧ (settlements s ≠ [] → timeout s = false ∧ listener s = false).
Proof.
  intros s. subst s. destruct (setup_ok p) eqn:Hp.
  - unfold connectToESP32. rewrite (notifyOnly_started p Hp).
    destruct (waiting_or_closed events _ (waiting_executor (negb (linkLost p))))
      as [(_ & _ & Hd & Hst & _)|(Hc & Hst & Hd & _)].
    + rewrite Hst, Hd. simpl. repeat split; try lia; done.
    + rewrite Hst. repeat split; try lia; apply Hc.
  - destruct (notifyOnly_failed_run p events Hp) as ([e Hst] & Hc & Hd & _).
    rewrite Hst, Hd. simpl. repeat split; try lia; apply Hc.
Qed.

Lemma notifyOnly_settles_at_most_once_witness :
  timeout (connectToESP32 ready [TimeoutElapsed]) = false
  ∧ listener (connectToESP32 ready [TimeoutElapsed]) = false.
Proof.
  destruct (notifyOnly_settles_at_most_once ready [TimeoutElapsed])
    as (_ & _ & H).
  apply H. discriminate.
Defined.

(** The link stays up through quiet events exactly when none of them is
    the loss of the link. *)
Lemma waiting_connected (pre : list Event) (s : Session) :
  Forall quiet1 pre →
  connected (foldl dispatch s pre) = true
  ↔ connected s = true ∧ GattServerDisconnected ∉ pre.
Proof.
  revert s. induction pre as [|ev pre IH]; intros s Hq.
  - simpl. split; [intros H; split; [done|apply not_elem_of_nil] | by intros [H _]].
  - inversion Hq as [|? ? Hev Hpre]; subst. simpl.
    rewrite (IH _ Hpre), not_elem_of_cons.
    destruct ev as [[value|]| |]; try contradiction; simpl.
    + destruct (listener s); simpl; split;
        [intros [? ?]|intros [? [? ?]]|intros [? ?]|intros [? [? ?]]]; auto.
    + split; [intros [H _]; discriminate | intros [_ [H _]]; done].
Qed.

(** X17: the [cleanup] of the first revision disconnects exactly when
    the link is still up.  When the setup succeeded and the call is
    settled by the timer or by a notification with a value,
    [disconnect] is called once iff the link was not lost before that
    event, and the link is down afterwards. *)
Theorem notifyOnly_disconnects_iff_link_up
    (pre post : list Event) (ev : Event) (r : Settlement) :
  Forall quiet1 pre → verdict1 ev = Some r →
  let s := connectToESP32 ready (pre ++ ev :: post) in
  (disconnects s = 1 ↔ GattServerDisconnected ∉ pre)
  ∧ disconnects s ≤ 1 ∧ connected s = false.
Proof.
  intros Hpre Hev s. subst s.
  rewrite notifyOnly_ready, foldl_app. cbn [foldl].
  pose proof (waiting_quiets pre _ (waiting_executor true) Hpre) as Hw.
  pose proof (waiting_connected pre
                (executor (set_connected true idle)) Hpre) as Hc.
  destruct (waiting_decisive _ ev r Hw Hev) as (_ & H2 & H3 & H4).
  destruct (closed_inerts post _ H2) as (_ & _ & G3 & _ & G5).
  rewrite G3, H4. split; [|split; [|auto]].
  - destruct (connected (foldl dispatch _ pre)).
    + split; [intros _; by apply Hc | done].
    + split; [discriminate | intros Hn].
      assert (false = true) by (apply Hc; auto). done.
  - destruct (connected (foldl dispatch _ pre)); lia.
Qed.

Lemma notifyOnly_disconnects_iff_link_up_witness :
  disconnects
    (connectToESP32 ready
       ([GattServerDisconnected] ++ TimeoutElapsed :: []))
  ≤ 1.
Proof.
  apply (notifyOnly_disconnects_iff_link_up
           [GattServerDisconnected] [] TimeoutElapsed
           (Rejected (new_Error "No data received from ESP32")));
    [repeat constructor | reflexivity].
Defined.

End NotifyOnlySchedules.

(** ** What a fulfilled call returns *)

(** X18: under every platform and every schedule, a reading that either
    revision fulfils the call with is the decoded value of a payload the
    schedule delivered (a notification, or in the second revision an
    answer of [readValue]), hence a snapshot: pH 0, one value in tds,
    nitrogen, phosphorus and potassium, integers between 0 and 255. *)
Theorem fulfilled_reading_is_delivered_snapshot
    (p : Platform) (events1 : list NotifyOnly.Event)
    (events2 : list Fallback.Event) (d : SensorData) :
  (NotifyOnly.promise (NotifyOnly.connectToESP32 p events1)
   = Some (Fulfilled d) →
   snapshot d
   ∧ ∃ value, NotifyOnly.CharacteristicValueChanged (Some value) ∈ events1
              ∧ decode_notifyOnly value = Return d)
  ∧ (Fallback.promise (Fallback.connectToESP32 p events2)
     = Some (Fulfilled d) →
     snapshot d
     ∧ ∃ value, (Fallback.CharacteristicValueChanged (Some value) ∈ events2
                 ∨ Fallback.ReadValueSettled (Return value) ∈ events2)
                ∧ decode_fallback value = Return d).
Proof.
  split; intros Hr.
  - assert (Hex : ∃ value,
               NotifyOnly.CharacteristicValueChanged (Some value) ∈ events1
               ∧ decode_notifyOnly value = Return d).
    { destruct (setup_ok p) eqn:Hp.
      - destruct (notifyOnly_closed_form p events1 Hp) as (H & _).
        rewrite H in Hr.
        assert (Hin : Fulfilled d ∈ omap verdict1 events1).
        { destruct (omap verdict1 events1); [discriminate|].
          injection Hr as ->. apply elem_of_cons. auto. }
        apply list_elem_of_omap in Hin as (ev & Hin & Hv).
        destruct ev as [[value|]| |]; simpl in Hv; try discriminate.
        exists value. split; [done|].
        destruct (decode_notifyOnly value); congruence.
      - destruct (notifyOnly_failed_run p events1 Hp) as ([e He] & _).
        unfold NotifyOnly.promise in Hr. rewrite He in Hr. discriminate. }
    destruct Hex as (value & Hin & Hdec).
    split; [|eauto]. apply (decode_snapshot value). auto.
  - assert (Hex : ∃ value,
               (Fallback.CharacteristicValueChanged (Some value) ∈ events2
                ∨ Fallback.ReadValueSettled (Return value) ∈ events2)
               ∧ decode_fallback value = Return d).
    { destruct (setup_ok p) eqn:Hp.
      - destruct (fallback_provenance p events2 _ Hp Hr)
          as [[(value & data & Hin & Hdec & Heq)|(_ & answer & Hin & Heq)] _].
        + injection Heq as ->. eauto.
        + destruct answer as [value|e]; simpl in Heq; [|discriminate].
          exists value. split; [auto|].
          destruct (decode_fallback value); congruence.
      - destruct (fallback_failed_run p events2 Hp) as ([e He] & _).
        unfold Fallback.promise in Hr. rewrite He in Hr. discriminate. }
    destruct Hex as (value & Hin & Hdec).
    split; [|eauto]. apply (decode_snapshot value). auto.
Qed.

Lemma fulfilled_reading_is_delivered_snapshot_witness :
  snapshot (Fallback.bytesToSensorData 42 17).
Proof.
  destruct (fulfilled_reading_is_delivered_snapshot ready []
              [Fallback.TimeoutElapsed;
               Fallback.ReadValueSettled (Return (DataView_of [42; 17]%Z))]
              (Fallback.bytesToSensorData 42 17)) as [_ H].
  apply H. reflexivity.
Defined.

(** ** The console *)

Lemma count_lines_snoc (f : ConsoleLine → bool) (console : list ConsoleLine)
    (line : ConsoleLine) :
  count_lines f (console ++ [line])
  = count_lines f console + (if f line then 1 else 0).
Proof.
  unfold count_lines. rewrite List.filter_app, length_app. simpl.
  by destruct (f line).
Qed.

Lemma notifyOnly_console_step (s : NotifyOnly.Session) (ev : NotifyOnly.Event) :
  count_lines is_disconnected (NotifyOnly.console s) = NotifyOnly.disconnects s →
  count_lines is_disconnected (NotifyOnly.console (NotifyOnly.dispatch s ev))
  = NotifyOnly.disconnects (NotifyOnly.dispatch s ev).
Proof.
  intros H. destruct s as [t l c d st co]; simpl in *.
  destruct ev as [[value|]| |]; simpl.
  - destruct l; [|done]. unfold NotifyOnly.handler, NotifyOnly.cleanup.
    destruct (NotifyOnly.parsePayload value) as [[m e]|err]; simpl;
      destruct c; simpl; rewrite ?count_lines_snoc; simpl; lia.
  - by destruct l.
  - destruct t; [|done]. unfold NotifyOnly.timeout_callback, NotifyOnly.cleanup.
    simpl. destruct c; simpl; rewrite ?count_lines_snoc; simpl; lia.
  - done.
Qed.

Lemma fallback_console_step (s : Fallback.Session) (ev : Fallback.Event) :
  count_lines is_disconnected (Fallback.console s) = Fallback.disconnects s
  ∧ count_lines is_fallback (Fallback.console s) = Fallback.readValues s →
  let s' := Fallback.dispatch s ev in
  count_lines is_disconnected (Fallback.console s') = Fallback.disconnects s'
  ∧ count_lines is_fallback (Fallback.console s') = Fallback.readValues s'.
Proof.
  intros [H1 H2]. destruct s; simpl in *.
  destruct ev as [[value|]| |answer|]; simpl;
    repeat progress
      (unfold Fallback.handler, Fallback.resolve_notif,
         Fallback.resolve_timeout, Fallback.settle_race, Fallback.after_race,
         Fallback.after_readValue, Fallback.finally;
       simpl);
    repeat (case_match; simpl;
            repeat progress
              (unfold Fallback.handler, Fallback.resolve_notif,
                 Fallback.resolve_timeout, Fallback.settle_race,
                 Fallback.after_race, Fallback.after_readValue,
                 Fallback.finally;
               simpl));
    rewrite ?count_lines_snoc; simpl; split; lia.
Qed.

Lemma notifyOnly_console_run (events : list NotifyOnly.Event)
    (s : NotifyOnly.Session) :
  count_lines is_disconnected (NotifyOnly.console s) = NotifyOnly.disconnects s →
  count_lines is_disconnected
    (NotifyOnly.console (foldl NotifyOnly.dispatch s events))
  = NotifyOnly.disconnects (foldl NotifyOnly.dispatch s events).
Proof.
  revert s. induction events as [|ev events IH]; intros s Hs; [done|].
  simpl. apply IH. by apply notifyOnly_console_step.
Qed.

Lemma fallback_console_run (events : list Fallback.Event)
    (s : Fallback.Session) :
  count_lines is_disconnected (Fallback.console s) = Fallback.disconnects s
  ∧ count_lines is_fallback (Fallback.console s) = Fallback.readValues s →
  let s' := foldl Fallback.dispatch s events in
  count_lines is_disconnected (Fallback.console s') = Fallback.disconnects s'
  ∧ count_lines is_fallback (Fallback.console s') = Fallback.readValues s'.
Proof.
  revert s. induction events as [|ev events IH]; intros s Hs; [done|].
  simpl. apply IH. by apply fallback_console_step.
Qed.

(** X19: the console tells what was done.  Under every platform and
    every schedule, each revision has logged the disconnection exactly as
    many times as it called [disconnect], and the second revision has
    logged the fallback warning exactly as many times as it called
    [readValue]. *)
Theorem console_counts_calls
    (p : Platform) (events1 : list NotifyOnly.Event)
    (events2 : list Fallback.Event) :
  let s1 := NotifyOnly.connectToESP32 p events1 in
  let s2 := Fallback.connectToESP32 p events2 in
  count_lines is_disconnected (NotifyOnly.console s1) = NotifyOnly.disconnects s1
  ∧ count_lines is_disconnected (Fallback.console s2) = Fallback.disconnects s2
  ∧ count_lines is_fallback (Fallback.console s2) = Fallback.readValues s2.
Proof.
  intros s1 s2. subst s1 s2. split.
  - destruct (setup_ok p) eqn:Hp.
    + unfold NotifyOnly.connectToESP32. rewrite (notifyOnly_started p Hp).
      by apply notifyOnly_console_run.
    + unfold NotifyOnly.connectToESP32.
      destruct (notifyOnly_failed p Hp) as [e ->].
      by apply notifyOnly_console_run.
  - destruct (setup_ok p) eqn:Hp.
    + unfold Fallback.connectToESP32. rewrite (fallback_started p Hp).
      by apply fallback_console_run.
    + unfold Fallback.connectToESP32.
      destruct (fallback_failed p Hp) as [e ->].
      apply fallback_console_run.
      by destruct (link_up p), (linkLost p).
Qed.

(** ** The two revisions side by side *)

(** X20: [cleanup] is idempotent.  Whatever the session, a second call
    changes nothing: the guard on [connected] keeps it from disconnecting
    or logging again. *)
Theorem cleanup_idempotent (s : NotifyOnly.Session) :
  NotifyOnly.cleanup (NotifyOnly.cleanup s) = NotifyOnly.cleanup s
  ∧ NotifyOnly.disconnects (NotifyOnly.cleanup s)
    ≤ S (NotifyOnly.disconnects s)
  ∧ NotifyOnly.connected (NotifyOnly.cleanup s) = false.
Proof.
  destruct s as [t l c d st co]. unfold NotifyOnly.cleanup. simpl.
  destruct c; simpl; repeat split; lia.
Qed.

Lemma agree_run (events : list NotifyOnly.Event)
    (s1 : NotifyOnly.Session) (s2 : Fallback.Session) :
  waiting s1 → racing s2 →
  NotifyOnly.connected s1 = Fallback.connected s2 →
  Forall well_formed_early events →
  let s1' := foldl NotifyOnly.dispatch s1 events in
  let s2' := foldl Fallback.dispatch s2 (same_event <$> events) in
  NotifyOnly.settlements s1' = Fallback.settlements s2'
  ∧ NotifyOnly.disconnects s1' = Fallback.disconnects s2'
  ∧ NotifyOnly.connected s1' = Fallback.connected s2'
  ∧ Fallback.readValues s2' = 0.
Proof.
  revert s1 s2. induction events as [|ev events IH];
    intros s1 s2 H1 H2 Hc Hev.
  - simpl. destruct H1 as (_ & _ & Hd1 & Hs1 & _).
    destruct H2 as (_ & _ & _ & _ & _ & _ & Hd2 & Hr2 & Hs2).
    rewrite Hd1, Hs1, Hd2, Hr2, Hs2. done.
  - inversion Hev as [|? ? Hok Hrest]; subst. rewrite fmap_cons. cbn [foldl].
    destruct ev as [[value|]| |]; try contradiction.
    + simpl in Hok. destruct (byteLength_2 value Hok) as (m & e & Hval).
      set (d := NotifyOnly.toSensorData (uint8 m) (uint8 e)).
      assert (Hv : verdict1 (NotifyOnly.CharacteristicValueChanged (Some value))
                   = Some (Fulfilled d)) by (by rewrite Hval).
      assert (Hd : decode_fallback value = Return d) by (by rewrite Hval).
      destruct (waiting_decisive s1 _ _ H1 Hv) as (A1 & A2 & A3 & A4).
      destruct (racing_notification s2 value d H2 Hd)
        as (_ & B2 & B3 & B4 & _ & _ & B7 & B8).
      destruct (closed_inerts events _ A2) as (_ & C2 & C3 & _ & C5).
      destruct (completed_inerts (same_event <$> events) _ B2)
        as (_ & D2 & D3 & D4 & D5).
      cbn [same_event]. cbv zeta.
      rewrite C2, C3, C5, D2, D3, D4, D5, A1, A4, B3, B4, B8, Hc; done.
    + apply IH;
        [ by apply waiting_quiet
        | by apply (racing_quiet s2 (Fallback.CharacteristicValueChanged None))
        | simpl; by destruct (NotifyOnly.listener s1), (Fallback.listener s2)
        | done ].
    + apply IH;
        [ by apply waiting_quiet
        | by apply (racing_quiet s2 Fallback.GattServerDisconnected)
        | done
        | done ].
Qed.

(** X21: before the timer fires and on payloads of exactly two bytes the
    two revisions cannot be told apart.  On every such schedule both
    leave the call pending or both fulfil it with the same reading, with
    the same number of calls of [disconnect] and the same link state, and
    the second revision reads nothing. *)
Theorem revisions_agree_before_timer (events : list NotifyOnly.Event) :
  Forall well_formed_early events →
  let s1 := NotifyOnly.connectToESP32 ready events in
  let s2 := Fallback.connectToESP32 ready (same_event <$> events) in
  NotifyOnly.promise s1 = Fallback.promise s2
  ∧ NotifyOnly.disconnects s1 = Fallback.disconnects s2
  ∧ NotifyOnly.connected s1 = Fallback.connected s2
  ∧ Fallback.readValues s2 = 0.
Proof.
  intros Hev s1 s2. subst s1 s2.
  rewrite notifyOnly_ready, fallback_ready.
  destruct (agree_run events _ _ (waiting_executor true) (racing_start true)
              eq_refl Hev) as (H1 & H2 & H3 & H4).
  unfold NotifyOnly.promise, Fallback.promise. by rewrite H1.
Qed.

Lemma revisions_agree_before_timer_witness :
  NotifyOnly.promise
    (NotifyOnly.connectToESP32 ready
       [NotifyOnly.GattServerDisconnected;
        NotifyOnly.CharacteristicValueChanged (Some (DataView_of [42; 17]%Z))])
  = Fallback.promise
      (Fallback.connectToESP32 ready
         (same_event <$>
            [NotifyOnly.GattServerDisconnected;
             NotifyOnly.CharacteristicValueChanged
               (Some (DataView_of [42; 17]%Z))])).
Proof.
  apply (revisions_agree_before_timer
           [NotifyOnly.GattServerDisconnected;
            NotifyOnly.CharacteristicValueChanged
              (Some (DataView_of [42; 17]%Z))]).
  repeat constructor.
Defined.
